(** * cmlutils: the project entry points (export, import, runtime catalog)

    A shallow embedding of [cmlutils/project_entrypoint.py].  The three
    commands of that file sequence calls into collaborators (the project
    exporter and importer, the validators, the configuration parser, the
    remote API).  The commands are embedded as programs of a small monad with
    exceptions, one mutable local and a log of the calls made; the
    collaborators are the fields of a type class, so that every theorem holds
    for every implementation of them. *)

From stdpp Require Import base gmap strings list.
From Stdlib Require Import ZArith Lia Ascii.

(** ** Data *)

(** A JSON value, as [json.load] produces it (numbers kept integral). *)
#[warnings="-register-all"]
Inductive json :=
| JNull
| JBool (b : bool)
| JNum (z : Z)
| JStr (s : string)
| JArr (l : list json)
| JObj (l : list (string * json)).

(** The exceptions the entry points raise themselves or tell apart, and one
    constructor for whatever else a collaborator raises. *)
Inductive exn :=
| RuntimeError (args : list string)
| KeyError (key : string)
| NoOptionError (option section : string)
| NoSectionError (section : string)
| SystemExit
| OtherError (what : string).

(** What a call into a collaborator gives back. *)
Inductive result (A : Type) :=
| Ok (a : A)
| Err (e : exn).
Arguments Ok {A} a.
Arguments Err {A} e.

(** Modelled from the spec: [cmlutils.script_models.ValidationResponseStatus]
    is not part of the sources at hand; the spec gives a validation result
    the two statuses PASSED and FAILED and a message. *)
Inductive ValidationResponseStatus := PASSED | FAILED.

Record ValidationResponse := {
  validation_status : ValidationResponseStatus;
  validation_msg : string
}.

Definition is_FAILED (s : ValidationResponseStatus) : bool :=
  match s with FAILED => true | PASSED => false end.

(** One page of the runtime listing: a non-empty mapping in which either key
    may be missing ([None]), read with [response.get(key, default)]. *)
Record page := {
  pg_runtimes : option (list json);
  pg_next_page_token : option string
}.

(** Keyword arguments of [ProjectExporter(...)]. *)
Record exporter_args := {
  ex_host : string;
  ex_username : string;
  ex_project_name : string;
  ex_api_key : string;
  ex_top_level_dir : string;
  ex_ca_path : string;
  ex_project_slug : option string;
  ex_owner_type : option string
}.

(** Keyword arguments of [ProjectImporter(...)].  The user name is a JSON
    value: the import takes it from the metadata document when that has a
    ["team_name"]. *)
Record importer_args := {
  im_host : string;
  im_username : json;
  im_project_name : string;
  im_api_key : string;
  im_top_level_dir : string;
  im_ca_path : string;
  im_project_slug : option string
}.

(** Keyword arguments of [initialize_export_validators] and
    [initialize_import_validators] (the latter passes no slug). *)
Record validator_args := {
  va_host : string;
  va_username : string;
  va_project_name : string;
  va_top_level_directory : string;
  va_apiv1_key : string;
  va_ca_path : string;
  va_project_slug : option (option string)
}.

Inductive level := INFO | WARNING | ERROR.

(** The Python variable a collaborator object is bound to. *)
Inductive var := var_pobj | var_pexport | var_p | var_pimport.

(** ** The log of calls

    One event per call that leaves the module, with the arguments the
    entry point passed and what came back. *)
Inductive event :=
| EvPrint (words : list string)
| EvLog (lvl : level) (fmt : string) (args : list json) (exc_info : option exn)
| EvLoggingConfigured (log_filename : string) (r : result unit)
| EvSetLogRecordFactory (project_name : string)
| EvMakedirs (path : string) (r : result unit)
| EvNewExporter (x : var) (a : exporter_args) (r : result unit)
| EvNewImporter (x : var) (a : importer_args) (r : result unit)
| EvGetCreatorUsername (x : var) (r : result (list (option string)))
| EvInitValidators (a : validator_args) (r : result nat)
| EvValidate (i : nat) (r : result ValidationResponse)
| EvTransfer (x : var) (r : result unit)
| EvDumpMetadata (x : var) (r : result unit)
| EvTerminate (x : var) (r : result unit)
| EvReadJson (path : string) (r : result (gmap string json))
| EvCheckProjectExist (x : var) (name : json) (r : result (option string))
| EvCreateProject (x : var) (proj_metadata : gmap string json)
    (r : result (option string))
| EvConvertToEngine (x : var) (proj_patch_metadata : gmap string json)
    (r : result unit)
| EvImportMetadata (x : var) (project_id : option string) (r : result unit)
| EvGetAllRuntimes (x : var) (page_token : string) (r : result (option page))
| EvParseRuntimes (runtimes : list json) (r : result json)
| EvOpenWrite (path : string) (r : result unit)
| EvDump (doc : json) (written : string) (err : option exn)
| EvExit.

(** ** The collaborators

    Everything the entry points import.  [W] is the state of the world
    outside the module (both installations, the local disk, the parser
    object, open sessions); [Obj] is a reference to an exporter or importer
    object, [Validator] one to a validator. *)
Class Collaborators (W Obj Validator : Type) := {
  (* cmlutils.constants *)
  USERNAME_KEY : string;
  URL_KEY : string;
  API_V1_KEY : string;
  OUTPUT_DIR_KEY : string;
  CA_PATH_KEY : string;
  LOG_FILE : string;
  (* os *)
  expanduser : string -> W -> string;
  os_path_exists : string -> W -> bool;
  os_makedirs : string -> W -> result unit * W;
  (* logging.basicConfig with a stream handler and a rotating file handler
     on the given file *)
  logging_basicConfig : string -> W -> result unit * W;
  (* configparser.ConfigParser: read(file), get(section, option) *)
  config_read : string -> W -> result unit * W;
  config_get : string -> string -> W -> result string * W;
  (* open(path, "w") and json.dump *)
  open_w : string -> W -> result unit * W;
  json_dump : json -> W -> (string * option exn) * W;
  (* cmlutils.utils, cmlutils.directory_utils *)
  get_absolute_path : string -> W -> result string * W;
  read_json_file : string -> W -> result (gmap string json) * W;
  parse_runtimes_v2 : list json -> W -> result json * W;
  get_project_metadata_file_path : string -> string -> W -> result string * W;
  (* cmlutils.validator *)
  initialize_export_validators :
    validator_args -> W -> result (list Validator) * W;
  initialize_import_validators :
    validator_args -> W -> result (list Validator) * W;
  validate : Validator -> W -> result ValidationResponse * W;
  (* cmlutils.projects.ProjectExporter *)
  ProjectExporter : exporter_args -> W -> result Obj * W;
  exporter_get_creator_username :
    Obj -> W -> result (option string * option string * option string) * W;
  transfer_project_files : Obj -> W -> result unit * W;
  dump_project_and_related_metadata : Obj -> W -> result unit * W;
  (* cmlutils.projects.ProjectImporter *)
  ProjectImporter : importer_args -> W -> result Obj * W;
  importer_get_creator_username :
    Obj -> W -> result (option string * option string) * W;
  check_project_exist : Obj -> json -> W -> result (option string) * W;
  (* the dictionary is handed over by reference: the callee gives back the
     dictionary as it left it *)
  create_project_v2 :
    Obj -> gmap string json ->
    W -> (result (option string) * gmap string json) * W;
  transfer_project : Obj -> W -> result unit * W;
  convert_project_to_engine_based :
    Obj -> gmap string json -> W -> result unit * W;
  import_metadata : Obj -> option string -> W -> result unit * W;
  get_all_runtimes_v2 : Obj -> string -> W -> result (option page) * W;
  (* both classes *)
  terminate_ssh_session : Obj -> W -> result unit * W
}.

(** ** The monad of the entry points

    A program takes the state (the world, the one local variable that the
    exception handler reads, and the files the module itself has written)
    to an outcome, the new state and the events it emitted.  [NoFuel] is the
    outcome of a loop that was cut off; no handler catches it. *)
Record state (W Obj : Type) := mkState {
  world : W;
  local : option Obj;
  files : gmap string string
}.
Arguments mkState {W Obj} world local files.
Arguments world {W Obj} s.
Arguments local {W Obj} s.
Arguments files {W Obj} s.

Inductive outcome (A : Type) :=
| Ret (a : A)
| Raise (e : exn)
| NoFuel.
Arguments Ret {A} a.
Arguments Raise {A} e.
Arguments NoFuel {A}.

Definition M (W Obj A : Type) : Type :=
  state W Obj -> outcome A * state W Obj * list event.

Definition void {A} (r : result A) : result unit :=
  match r with Ok _ => Ok tt | Err e => Err e end.

Definition of_result {A} (r : result A) : outcome A :=
  match r with Ok a => Ret a | Err e => Raise e end.

Section Monad.
Context {W Obj : Type}.
#[export] Instance M_ret : MRet (M W Obj) := fun A a s => (Ret a, s, []).

#[export] Instance M_bind : MBind (M W Obj) := fun A B k m s =>
  match m s with
  | (Ret a, s1, t1) =>
      match k a s1 with (o, s2, t2) => (o, s2, t1 ++ t2) end
  | (Raise e, s1, t1) => (Raise e, s1, t1)
  | (NoFuel, s1, t1) => (NoFuel, s1, t1)
  end.

Definition raise {A} (e : exn) : M W Obj A := fun s => (Raise e, s, []).

Definition out_of_fuel {A} : M W Obj A := fun s => (NoFuel, s, []).

(** [try: body except <those e with catches e>: handler e]; a bare
    [except:] catches everything. *)
Definition try_except {A} (body : M W Obj A) (catches : exn -> bool)
    (handler : exn -> M W Obj A) : M W Obj A := fun s =>
  match body s with
  | (Raise e, s1, t1) =>
      if catches e
      then match handler e s1 with (o, s2, t2) => (o, s2, t1 ++ t2) end
      else (Raise e, s1, t1)
  | r => r
  end.

Definition emit (e : event) : M W Obj unit := fun s => (Ret tt, s, [e]).

(** A call into a collaborator, logged with what it gave back. *)
Definition call {A} (ev : result A -> event) (op : W -> result A * W)
    : M W Obj A := fun s =>
  match op (world s) with
  | (r, w) => (of_result r, mkState w (local s) (files s), [ev r])
  end.

(** The same, for the helpers that are not logged. *)
Definition call_quiet {A} (op : W -> result A * W) : M W Obj A := fun s =>
  match op (world s) with
  | (r, w) => (of_result r, mkState w (local s) (files s), [])
  end.

Definition ask {A} (f : W -> A) : M W Obj A := fun s => (Ret (f (world s)), s, []).

Definition get_local : M W Obj (option Obj) := fun s => (Ret (local s), s, []).

Definition set_local (o : option Obj) : M W Obj unit := fun s =>
  (Ret tt, mkState (world s) o (files s), []).

Definition set_file (path content : string) : M W Obj unit := fun s =>
  (Ret tt, mkState (world s) (local s) (<[path := content]> (files s)), []).

(** [d[key]] on a dictionary. *)
Definition getitem {V} (d : gmap string V) (key : string) : M W Obj V :=
  match d !! key with
  | Some v => mret v
  | None => raise (KeyError key)
  end.

Definition log (lvl : level) (fmt : string) (args : list json) : M W Obj unit :=
  emit (EvLog lvl fmt args None).

(** [exit()] raises [SystemExit]. *)
Definition exit {A} : M W Obj A := emit EvExit ;; raise SystemExit.
End Monad.

Definition catch_all (e : exn) : bool := true.

Definition is_NoOptionError (e : exn) : bool :=
  match e with NoOptionError _ _ => true | _ => false end.

(** [os.path.join] of [posixpath]. *)
Definition starts_with_sep (b : string) : bool :=
  match b with String c _ => bool_decide (c = "/"%char) | EmptyString => false end.

Fixpoint ends_with_sep (a : string) : bool :=
  match a with
  | EmptyString => false
  | String c EmptyString => bool_decide (c = "/"%char)
  | String _ rest => ends_with_sep rest
  end.

Definition path_join2 (path b : string) : string :=
  if starts_with_sep b then b
  else if bool_decide (path = EmptyString) || ends_with_sep path then path +:+ b
  else path +:+ "/" +:+ b.

Definition path_join (a : string) (ps : list string) : string :=
  foldl path_join2 a ps.

(** [dict.setdefault(key, value)]. *)
Definition setdefault {V} (key : string) (value : V) (d : gmap string V)
    : gmap string V :=
  match d !! key with
  | Some _ => d
  | None => <[key := value]> d
  end.

(** ** The entry points *)

Section EntryPoints.
Context {W Obj Validator : Type} {collab : Collaborators W Obj Validator}.

(** [_configure_project_command_logging] *)
Definition _configure_project_command_logging
    (log_filedir project_name : string) : M W Obj unit :=
  call (EvMakedirs log_filedir) (os_makedirs log_filedir);;
  let log_filename := log_filedir +:+ LOG_FILE in
  call (EvLoggingConfigured log_filename) (logging_basicConfig log_filename);;
  emit (EvSetLogRecordFactory project_name).

(** [config.get(section, option, fallback=...)]: the fallback replaces a
    missing section or option, nothing else. *)
Definition config_get_fallback (section option fallback : string)
    (w : W) : result string * W :=
  match config_get section option w with
  | (Err (NoOptionError _ _), w') => (Ok fallback, w')
  | (Err (NoSectionError _), w') => (Ok fallback, w')
  | r => r
  end.

(** The [for key in keys] loop of [_read_config_file]. *)
Fixpoint read_keys (project_name : string) (keys : list string)
    (output_config : gmap string string) : M W Obj (gmap string string) :=
  match keys with
  | [] => mret output_config
  | key :: rest =>
      output_config ←
        try_except
          (value ← call_quiet (config_get project_name key);
           mret (setdefault key value output_config))
          is_NoOptionError
          (fun e =>
             emit (EvPrint ["Key " +:+ key +:+ " is missing from config file."]);;
             raise e);
      read_keys project_name rest output_config
  end.

(** [_read_config_file] *)
Definition _read_config_file (file_path project_name : string)
    : M W Obj (gmap string string) :=
  file_exists ← ask (os_path_exists file_path);
  if file_exists : bool then
    call_quiet (config_read file_path);;
    let keys := [USERNAME_KEY; URL_KEY; API_V1_KEY; OUTPUT_DIR_KEY] in
    output_config ← read_keys project_name keys ∅;
    ca ← call_quiet (config_get_fallback project_name CA_PATH_KEY EmptyString);
    mret (<[CA_PATH_KEY := ca]> output_config)
  else
    emit (EvPrint ["Validation error: cannot find config file:"; file_path]);;
    raise (RuntimeError ["validation error"; "Cannot find config file"]).

(** The [for v in validators] loop of both commands; [report] is the
    [logging.error] call, which differs between them. *)
Fixpoint run_validators (report : string -> M W Obj unit) (i : nat)
    (validators : list Validator) : M W Obj unit :=
  match validators with
  | [] => mret tt
  | v :: rest =>
      validation_response ← call (EvValidate i) (validate v);
      if is_FAILED (validation_status validation_response) then
        report (validation_msg validation_response);;
        raise (RuntimeError
                 ["validation error"; validation_msg validation_response])
      else run_validators report (S i) rest
  end.

Definition new_exporter (x : var) (a : exporter_args) : M W Obj Obj :=
  call (fun r => EvNewExporter x a (void r)) (ProjectExporter a).

Definition new_importer (x : var) (a : importer_args) : M W Obj Obj :=
  call (fun r => EvNewImporter x a (void r)) (ProjectImporter a).

Definition tuple3 (r : result (option string * option string * option string))
    : result (list (option string)) :=
  match r with
  | Ok (a, b, c) => Ok [a; b; c]
  | Err e => Err e
  end.

Definition tuple2 (r : result (option string * option string))
    : result (list (option string)) :=
  match r with
  | Ok (a, b) => Ok [a; b]
  | Err e => Err e
  end.

(** [if pexport: pexport.terminate_ssh_session()] of the handlers (an
    exporter or importer object is truthy, [None] is not). *)
Definition terminate_if_bound (x : var) : M W Obj unit :=
  bound ← get_local;
  match bound with
  | Some o => call (EvTerminate x) (terminate_ssh_session o)
  | None => mret tt
  end.

(** The [except:] block of both commands. *)
Definition handler (x : var) (e : exn) : M W Obj unit :=
  emit (EvLog ERROR "Exception:" [] (Some e));;
  terminate_if_bound x;;
  exit.

(** [project_export_cmd] *)
Definition project_export_cmd (project_name : string) : M W Obj unit :=
  set_local None;;
  home ← ask (expanduser "~");
  config ← _read_config_file
             (home +:+ "/.cmlutils/export-config.ini") project_name;
  username ← getitem config USERNAME_KEY;
  url ← getitem config URL_KEY;
  apiv1_key ← getitem config API_V1_KEY;
  output_dir ← getitem config OUTPUT_DIR_KEY;
  ca_path ← getitem config CA_PATH_KEY;
  output_dir ← call_quiet (get_absolute_path output_dir);
  ca_path ← call_quiet (get_absolute_path ca_path);
  let log_filedir := path_join output_dir [project_name; "logs"] in
  _configure_project_command_logging log_filedir project_name;;
  log INFO "Started exporting project: %s" [JStr project_name];;
  try_except
    (pobj ← new_exporter var_pobj
              {| ex_host := url; ex_username := username;
                 ex_project_name := project_name; ex_api_key := apiv1_key;
                 ex_top_level_dir := output_dir; ex_ca_path := ca_path;
                 ex_project_slug := Some project_name;
                 ex_owner_type := Some EmptyString |};
     '(creator_username, project_slug, owner_type) ←
       call (fun r => EvGetCreatorUsername var_pobj (tuple3 r))
            (exporter_get_creator_username pobj);
     match creator_username with
     | None =>
         log ERROR
           "Validation error: Cannot find project - %s under username %s"
           [JStr project_name; JStr username];;
         raise (RuntimeError ["Validation error"])
     | Some creator_username =>
         log INFO "Begin validating for export." [];;
         let vargs :=
           {| va_host := url; va_username := creator_username;
              va_project_name := project_name;
              va_top_level_directory := output_dir;
              va_apiv1_key := apiv1_key; va_ca_path := ca_path;
              va_project_slug := Some project_slug |} in
         validators ←
           call (fun r => EvInitValidators vargs
                            (match r with
                             | Ok vs => Ok (length vs)
                             | Err e => Err e
                             end))
                (initialize_export_validators vargs);
         run_validators
           (fun msg => log ERROR "Validation error: %s"
                         [JStr project_name; JStr msg])
           0 validators;;
         log INFO "Finished validating export validations for project %s."
           [JStr project_name];;
         log INFO "File transfer has started." [];;
         pexport ← new_exporter var_pexport
                     {| ex_host := url; ex_username := creator_username;
                        ex_project_name := project_name;
                        ex_api_key := apiv1_key;
                        ex_top_level_dir := output_dir;
                        ex_ca_path := ca_path;
                        ex_project_slug := project_slug;
                        ex_owner_type := owner_type |};
         set_local (Some pexport);;
         call (EvTransfer var_pexport) (transfer_project_files pexport);;
         call (EvDumpMetadata var_pexport)
              (dump_project_and_related_metadata pexport)
     end)
    catch_all
    (handler var_pexport).

(** [p.create_project_v2(proj_metadata=project_metadata)]: gives the new
    project id and the dictionary as the callee left it. *)
Definition create_project (x : var) (o : Obj)
    (project_metadata : gmap string json)
    : M W Obj (option string * gmap string json) :=
  call (fun r => EvCreateProject x project_metadata
                   (match r with
                    | Ok (project_id, _) => Ok project_id
                    | Err e => Err e
                    end))
       (fun w =>
          match create_project_v2 o project_metadata w with
          | ((Ok project_id, after), w') => (Ok (project_id, after), w')
          | ((Err e, _), w') => (Err e, w')
          end).

Definition import_warning : string :=
  "Project %s already exist in the target workspace. Retrying the import won't update existing project settings or artifacts. Only missing artifacts will be migrated, However the project files will be synced via rsync.".

(** [project_import_cmd] *)
Definition project_import_cmd (project_name : string) : M W Obj unit :=
  set_local None;;
  home ← ask (expanduser "~");
  config ← _read_config_file
             (home +:+ "/.cmlutils/import-config.ini") project_name;
  username ← getitem config USERNAME_KEY;
  url ← getitem config URL_KEY;
  apiv1_key ← getitem config API_V1_KEY;
  local_directory ← getitem config OUTPUT_DIR_KEY;
  ca_path ← getitem config CA_PATH_KEY;
  local_directory ← call_quiet (get_absolute_path local_directory);
  ca_path ← call_quiet (get_absolute_path ca_path);
  let log_filedir := path_join local_directory [project_name; "logs"] in
  _configure_project_command_logging log_filedir project_name;;
  p ← new_importer var_p
        {| im_host := url; im_username := JStr username;
           im_project_name := project_name; im_api_key := apiv1_key;
           im_top_level_dir := local_directory; im_ca_path := ca_path;
           im_project_slug := Some project_name |};
  log INFO "Started importing project: %s" [JStr project_name];;
  try_except
    (let vargs :=
       {| va_host := url; va_username := username;
          va_project_name := project_name;
          va_top_level_directory := local_directory;
          va_apiv1_key := apiv1_key; va_ca_path := ca_path;
          va_project_slug := None |} in
     validators ←
       call (fun r => EvInitValidators vargs
                        (match r with
                         | Ok vs => Ok (length vs)
                         | Err e => Err e
                         end))
            (initialize_import_validators vargs);
     log INFO "Begin validating for import." [];;
     run_validators
       (fun msg => log ERROR "Validation error for project %s: %s"
                     [JStr project_name; JStr msg])
       0 validators;;
     log INFO "Finished validating import validations for project %s."
       [JStr project_name];;
     project_filepath ←
       call_quiet (get_project_metadata_file_path
                     local_directory project_name);
     project_metadata ←
       call (EvReadJson project_filepath) (read_json_file project_filepath);
     let uses_engine :=
       bool_decide (is_Some (project_metadata !! "default_project_engine_type")) in
     let project_metadata :=
       if uses_engine
       then delete "default_project_engine_type" project_metadata
       else project_metadata in
     name ← getitem project_metadata "name";
     project_id ← call (EvCheckProjectExist var_p name)
                       (check_project_exist p name);
     '(project_id, project_metadata) ←
       match project_id with
       | None =>
           log INFO "Creating project %s to migrate files and metadata."
             [JStr project_name];;
           create_project var_p p project_metadata
       | Some _ =>
           log WARNING import_warning
             [default (JStr EmptyString) (project_metadata !! "name")];;
           mret (project_id, project_metadata)
       end;
     let username :=
       match project_metadata !! "team_name" with
       | Some team_name => team_name
       | None => JStr username
       end in
     '(creator_username, project_slug) ←
       call (fun r => EvGetCreatorUsername var_p (tuple2 r))
            (importer_get_creator_username p);
     pimport ← new_importer var_pimport
                 {| im_host := url; im_username := username;
                    im_project_name := project_name;
                    im_api_key := apiv1_key;
                    im_top_level_dir := local_directory;
                    im_ca_path := ca_path;
                    im_project_slug := project_slug |};
     set_local (Some pimport);;
     call (EvTransfer var_pimport) (transfer_project pimport);;
     call (EvTerminate var_pimport) (terminate_ssh_session pimport);;
     (if uses_engine then
        let proj_patch_metadata : gmap string json :=
          {[ "default_project_engine_type" := JStr "legacy_engine" ]} in
        call (EvConvertToEngine var_pimport proj_patch_metadata)
             (convert_project_to_engine_based pimport proj_patch_metadata)
      else mret tt);;
     call (EvImportMetadata var_pimport project_id)
          (import_metadata pimport project_id))
    catch_all
    (handler var_pimport).

(** The [while len(page_token) > 0] loop of
    [populate_engine_runtimes_mapping]; [break] leaves it with what has
    been gathered.  The loop runs as long as the remote side returns
    non-empty tokens, so the embedding counts its iterations down from
    [fuel]. *)
Fixpoint fetch_more (fuel : nat) (p : Obj) (page_token : string)
    (runtimes : list json) : M W Obj (list json) :=
  if bool_decide (0 < String.length page_token)%nat then
    match fuel with
    | O => out_of_fuel
    | S fuel =>
        response ← call (EvGetAllRuntimes var_p page_token)
                        (get_all_runtimes_v2 p page_token);
        match response with
        | None => mret runtimes
        | Some response =>
            fetch_more fuel p
              (default EmptyString (pg_next_page_token response))
              (runtimes ++ default [] (pg_runtimes response))
        end
    end
  else mret runtimes.

(** [dump(legacy_runtime_image_map, f)] on the file just opened at [path]:
    what was written stays in the file also when the call raises. *)
Definition dump (path : string) (doc : json) : M W Obj unit := fun s =>
  match json_dump doc (world s) with
  | ((written, err), w) =>
      (match err with None => Ret tt | Some e => Raise e end,
       mkState w (local s) (<[path := written]> (files s)),
       [EvDump doc written err])
  end.

Definition catalog_path (home : string) : string :=
  home +:+ "/.cmlutils/" +:+ "legacy_engine_runtime_constants.json".

(** [populate_engine_runtimes_mapping] *)
Definition populate_engine_runtimes_mapping (fuel : nat) : M W Obj unit :=
  let project_name := "DEFAULT" in
  home ← ask (expanduser "~");
  config ← _read_config_file
             (home +:+ "/.cmlutils/import-config.ini") project_name;
  username ← getitem config USERNAME_KEY;
  url ← getitem config URL_KEY;
  apiv1_key ← getitem config API_V1_KEY;
  local_directory ← getitem config OUTPUT_DIR_KEY;
  ca_path ← getitem config CA_PATH_KEY;
  local_directory ← call_quiet (get_absolute_path local_directory);
  ca_path ← call_quiet (get_absolute_path ca_path);
  let log_filedir := path_join local_directory [project_name; "logs"] in
  _configure_project_command_logging log_filedir project_name;;
  p ← new_importer var_p
        {| im_host := url; im_username := JStr username;
           im_project_name := project_name; im_api_key := apiv1_key;
           im_top_level_dir := local_directory; im_ca_path := ca_path;
           im_project_slug := Some project_name |};
  let page_token := EmptyString in
  response ← call (EvGetAllRuntimes var_p page_token)
                  (get_all_runtimes_v2 p page_token);
  match response with
  | None =>
      log INFO
        "populate_engine_runtimes_mapping: Get Runtimes API returned empty response"
        []
  | Some response =>
      let runtimes := default [] (pg_runtimes response) in
      let page_token := default EmptyString (pg_next_page_token response) in
      runtimes ← fetch_more fuel p page_token runtimes;
      if bool_decide (0 < length runtimes)%nat then
        legacy_runtime_image_map ←
          call (EvParseRuntimes runtimes) (parse_runtimes_v2 runtimes);
        home ← ask (expanduser "~");
        try_except
          (call (EvOpenWrite (catalog_path home))
                (open_w (catalog_path home));;
           set_file (catalog_path home) EmptyString;;
           dump (catalog_path home) legacy_runtime_image_map)
          catch_all
          (fun _ =>
             home ← ask (expanduser "~");
             log ERROR
               "populate_engine_runtimes_mapping: Please make sure Write Perms are set write/overwrite data.Encountered Error during write/overwrite data in "
               [JStr (catalog_path home)])
      else
        log ERROR
          "populate_engine_runtimes_mapping: No runtimes present in the get_runtimes API response"
          []
  end.
End EntryPoints.

(** ** Scripted collaborators

    A concrete implementation of the collaborators in which every call
    answers from a fixed script, whatever happened before; it runs the entry
    points on examples. *)
Record script := {
  sc_config_file : bool;
  sc_config : string -> result string;
  sc_export_creator :
    result (option string * option string * option string);
  sc_import_creator : result (option string * option string);
  sc_validators : result (list (result ValidationResponse));
  sc_new_transfer_object : result unit;
  sc_transfer : result unit;
  sc_dump_metadata : result unit;
  sc_terminate : result unit;
  sc_metadata : result (gmap string json);
  sc_project_exist : result (option string);
  sc_create_project : result (option string);
  sc_convert : result unit;
  sc_import_metadata : result unit;
  sc_runtimes : string -> result (option page);
  sc_open_w : result unit;
  sc_json_dump : json -> string * option exn
}.

(** The world has no state; an object is the user name it was built for, a
    validator is the result it will give. *)
Definition scripted (sc : script)
    : Collaborators unit json (result ValidationResponse) := {|
  USERNAME_KEY := "username";
  URL_KEY := "url";
  API_V1_KEY := "apiv1_key";
  OUTPUT_DIR_KEY := "output_dir";
  CA_PATH_KEY := "ca_path";
  LOG_FILE := "/main.log";
  expanduser := fun _ _ => "/home/u";
  os_path_exists := fun _ _ => sc_config_file sc;
  os_makedirs := fun _ w => (Ok tt, w);
  logging_basicConfig := fun _ w => (Ok tt, w);
  config_read := fun _ w => (Ok tt, w);
  config_get := fun _ option w => (sc_config sc option, w);
  open_w := fun _ w => (sc_open_w sc, w);
  json_dump := fun doc w => (sc_json_dump sc doc, w);
  get_absolute_path := fun path w => (Ok path, w);
  read_json_file := fun _ w => (sc_metadata sc, w);
  parse_runtimes_v2 := fun runtimes w => (Ok (JArr runtimes), w);
  get_project_metadata_file_path := fun dir name w =>
    (Ok (path_join dir [name; "project-metadata.json"]), w);
  initialize_export_validators := fun _ w => (sc_validators sc, w);
  initialize_import_validators := fun _ w => (sc_validators sc, w);
  validate := fun v w => (v, w);
  ProjectExporter := fun a w =>
    (match ex_owner_type a with
     | Some EmptyString => Ok (JStr (ex_username a))
     | _ => match sc_new_transfer_object sc with
            | Ok _ => Ok (JStr (ex_username a))
            | Err e => Err e
            end
     end, w);
  exporter_get_creator_username := fun _ w => (sc_export_creator sc, w);
  transfer_project_files := fun _ w => (sc_transfer sc, w);
  dump_project_and_related_metadata := fun _ w => (sc_dump_metadata sc, w);
  ProjectImporter := fun a w => (Ok (im_username a), w);
  importer_get_creator_username := fun _ w => (sc_import_creator sc, w);
  check_project_exist := fun _ _ w => (sc_project_exist sc, w);
  create_project_v2 := fun _ md w => ((sc_create_project sc, md), w);
  transfer_project := fun _ w => (sc_transfer sc, w);
  convert_project_to_engine_based := fun _ _ w => (sc_convert sc, w);
  import_metadata := fun _ _ w => (sc_import_metadata sc, w);
  get_all_runtimes_v2 := fun _ token w => (sc_runtimes sc token, w);
  terminate_ssh_session := fun _ w => (sc_terminate sc, w)
|}.

Definition start : state unit json := mkState tt None ∅.

Definition export_of (sc : script) (project_name : string)
    : M unit json unit :=
  @project_export_cmd unit json _ (scripted sc) project_name.

Definition import_of (sc : script) (project_name : string)
    : M unit json unit :=
  @project_import_cmd unit json _ (scripted sc) project_name.

Definition populate_of (sc : script) (fuel : nat) : M unit json unit :=
  @populate_engine_runtimes_mapping unit json _ (scripted sc) fuel.

Definition passes (msg : string) : result ValidationResponse :=
  Ok {| validation_status := PASSED; validation_msg := msg |}.

Definition fails (msg : string) : result ValidationResponse :=
  Ok {| validation_status := FAILED; validation_msg := msg |}.

Definition good_config (option : string) : result string :=
  if bool_decide (option = "username") then Ok "admin"
  else if bool_decide (option = "url") then Ok "https://cml.example"
  else if bool_decide (option = "apiv1_key") then Ok "k1"
  else if bool_decide (option = "output_dir") then Ok "/data/out"
  else Err (NoOptionError option "proj").

Definition sample_metadata : gmap string json :=
  {[ "name" := JStr "churn"; "description" := JStr "demo" ]}.

(** The runtimes of a document, one name after the other. *)
Definition show_runtimes (doc : json) : string :=
  match doc with
  | JArr l =>
      String.concat ","
        (map (fun j => match j with JStr s => s | _ => "?" end) l)
  | _ => "?"
  end.

(** A script in which everything succeeds, but for the answers given
    here. *)
Definition scenario
    (export_creator : result (option string * option string * option string))
    (validators : list (result ValidationResponse))
    (metadata : gmap string json)
    (project_exist : option string)
    (metadata_import : result unit)
    (runtimes : string -> result (option page)) : script := {|
  sc_config_file := true;
  sc_config := good_config;
  sc_export_creator := export_creator;
  sc_import_creator := Ok (Some "alice", Some "alice/churn");
  sc_validators := Ok validators;
  sc_new_transfer_object := Ok tt;
  sc_transfer := Ok tt;
  sc_dump_metadata := Ok tt;
  sc_terminate := Ok tt;
  sc_metadata := Ok metadata;
  sc_project_exist := Ok project_exist;
  sc_create_project := Ok (Some "id-1");
  sc_convert := Ok tt;
  sc_import_metadata := metadata_import;
  sc_runtimes := runtimes;
  sc_open_w := Ok tt;
  sc_json_dump := fun doc => (show_runtimes doc, None)
|}.

Definition found : result (option string * option string * option string) :=
  Ok (Some "alice", Some "alice/churn", Some "user").

Definition two_checks : list (result ValidationResponse) :=
  [passes "project exists"; passes "disk space"].

Definition no_listing (token : string) : result (option page) := Ok None.

Definition all_good : script :=
  scenario found two_checks sample_metadata None (Ok tt) no_listing.

(** The project is not among those of the user. *)
Definition not_found : script :=
  scenario (Ok (None, None, None)) two_checks sample_metadata None (Ok tt)
    no_listing.

(** The second of three validators reports FAILED. *)
Definition disk_full : script :=
  scenario found
    [passes "project exists"; fails "not enough disk space";
     passes "name is free"]
    sample_metadata None (Ok tt) no_listing.

(** The metadata import fails, after the files have been transferred. *)
Definition late_failure : script :=
  scenario found two_checks sample_metadata None
    (Err (OtherError "metadata import failed")) no_listing.

(** A legacy-engine project of a team. *)
Definition legacy_metadata : gmap string json :=
  {[ "name" := JStr "churn";
     "default_project_engine_type" := JStr "legacy_engine";
     "team_name" := JStr "analytics" ]}.

Definition legacy_project : script :=
  scenario found two_checks legacy_metadata None (Ok tt) no_listing.

(** The same project, imported again: the destination has it already. *)
Definition imported_again : script :=
  scenario found two_checks legacy_metadata (Some "id-7") (Ok tt) no_listing.

(** The listing of the spec's example: two pages. *)
Definition page_one : page :=
  {| pg_runtimes := Some [JStr "a"; JStr "b"];
     pg_next_page_token := Some "t1" |}.

Definition page_two : page :=
  {| pg_runtimes := Some [JStr "c"]; pg_next_page_token := Some EmptyString |}.

Definition two_pages (token : string) : result (option page) :=
  if bool_decide (token = EmptyString) then Ok (Some page_one)
  else if bool_decide (token = "t1") then Ok (Some page_two)
  else Ok None.

Definition paged_listing : script :=
  scenario found two_checks sample_metadata None (Ok tt) two_pages.

(** A listing that loses the second page. *)
Definition one_page_then_nothing (token : string) : result (option page) :=
  if bool_decide (token = EmptyString) then Ok (Some page_one) else Ok None.

Definition broken_listing : script :=
  scenario found two_checks sample_metadata None (Ok tt)
    one_page_then_nothing.

(** A listing that loses the third page. *)
Definition page_between : page :=
  {| pg_runtimes := Some [JStr "c"]; pg_next_page_token := Some "t2" |}.

Definition two_pages_then_nothing (token : string) : result (option page) :=
  if bool_decide (token = EmptyString) then Ok (Some page_one)
  else if bool_decide (token = "t1") then Ok (Some page_between)
  else Ok None.

Definition lost_third_page : script :=
  scenario found two_checks sample_metadata None (Ok tt)
    two_pages_then_nothing.

(** The result of the failing validator of [disk_full]. *)
Definition disk_space_failure : ValidationResponse :=
  {| validation_status := FAILED; validation_msg := "not enough disk space" |}.

(** The importer arguments of [legacy_project]: for [p], and for the
    importer that transfers. *)
Definition first_importer : importer_args :=
  {| im_host := "https://cml.example"; im_username := JStr "admin";
     im_project_name := "proj"; im_api_key := "k1";
     im_top_level_dir := "/data/out"; im_ca_path := EmptyString;
     im_project_slug := Some "proj" |}.

Definition team_importer : importer_args :=
  {| im_host := "https://cml.example"; im_username := JStr "analytics";
     im_project_name := "proj"; im_api_key := "k1";
     im_top_level_dir := "/data/out"; im_ca_path := EmptyString;
     im_project_slug := Some "alice/churn" |}.

(** ** Observing a run *)

Definition outcome_of {W Obj A} (m : M W Obj A) (s : state W Obj)
    : outcome A := (m s).1.1.

Definition state_of {W Obj A} (m : M W Obj A) (s : state W Obj)
    : state W Obj := (m s).1.2.

Definition trace_of {W Obj A} (m : M W Obj A) (s : state W Obj)
    : list event := (m s).2.

(** Kinds of events; [List.filter] with one of them keeps the events of that
    kind in the order in which they happened. *)
Definition is_transfer (e : event) : bool :=
  match e with EvTransfer _ _ => true | _ => false end.

Definition is_terminate (e : event) : bool :=
  match e with EvTerminate _ _ => true | _ => false end.

Definition is_validate (e : event) : bool :=
  match e with EvValidate _ _ => true | _ => false end.

Definition is_transfer_or_dump (e : event) : bool :=
  match e with
  | EvTransfer _ _ | EvDumpMetadata _ _ => true
  | _ => false
  end.

Definition is_session (e : event) : bool :=
  match e with
  | EvTransfer _ _ | EvDumpMetadata _ _ | EvTerminate _ _ => true
  | _ => false
  end.

Definition is_get_creator (e : event) : bool :=
  match e with EvGetCreatorUsername _ _ => true | _ => false end.

(** [logging.error("Exception:", exc_info=1)] while [e] is being handled. *)
Definition exception_log (e : exn) : event :=
  EvLog ERROR "Exception:" [] (Some e).

Definition is_exception_log (e : event) : bool :=
  match e with EvLog _ _ _ (Some _) => true | _ => false end.

Definition is_error_log (e : event) : bool :=
  match e with EvLog ERROR _ _ None => true | _ => false end.

(** What an export does once the creator of the project is known: the
    validators, the exporter that transfers, and its calls. *)
Definition after_identity (e : event) : bool :=
  match e with
  | EvInitValidators _ _ | EvValidate _ _ | EvNewExporter var_pexport _ _
  | EvTransfer _ _ | EvDumpMetadata _ _ | EvTerminate _ _ => true
  | _ => false
  end.

(** The events of one run of the validator loop started at index [i], with
    the outcome of the loop: validators pass one after the other until the
    list ends, one reports FAILED (which is logged by [report] and raised), or
    one raises. *)
Inductive validated (report : string -> event)
    : nat -> outcome unit -> list event -> Prop :=
| validated_end i :
    validated report i (Ret tt) []
| validated_pass i vr o t :
    is_FAILED (validation_status vr) = false ->
    validated report (S i) o t ->
    validated report i o (EvValidate i (Ok vr) :: t)
| validated_fail i vr :
    is_FAILED (validation_status vr) = true ->
    validated report i
      (Raise (RuntimeError ["validation error"; validation_msg vr]))
      [EvValidate i (Ok vr); report (validation_msg vr)]
| validated_raise i e :
    validated report i (Raise e) [EvValidate i (Err e)].

(** ** A program logic for the monad

    [wp m s Q]: the run of [m] from [s] ends in an outcome, a state and a
    trace that satisfy [Q]. *)
Definition wp {W Obj A} (m : M W Obj A) (s : state W Obj)
    (Q : outcome A -> state W Obj -> list event -> Prop) : Prop :=
  Q (outcome_of m s) (state_of m s) (trace_of m s).

(** What is left to show after the first half of a bind. *)
Definition then_ {W Obj A B} (k : A -> M W Obj B)
    (Q : outcome B -> state W Obj -> list event -> Prop)
    (o : outcome A) (s1 : state W Obj) (t1 : list event) : Prop :=
  match o with
  | Ret a => wp (k a) s1 (fun o2 s2 t2 => Q o2 s2 (t1 ++ t2))
  | Raise e => Q (Raise e) s1 t1
  | NoFuel => Q NoFuel s1 t1
  end.

(** What is left to show after the body of a [try]. *)
Definition caught {W Obj A} (catches : exn -> bool) (h : exn -> M W Obj A)
    (Q : outcome A -> state W Obj -> list event -> Prop)
    (o : outcome A) (s1 : state W Obj) (t1 : list event) : Prop :=
  match o with
  | Raise e =>
      if catches e then wp (h e) s1 (fun o2 s2 t2 => Q o2 s2 (t1 ++ t2))
      else Q (Raise e) s1 t1
  | _ => Q o s1 t1
  end.

(** ** What the runs of the commands look like *)

(** What a FAILED result of validator [i] entails for a run that ended with
    outcome [o] and trace [t]. *)
Definition stopped_by (i : nat) (vr : ValidationResponse)
    (o : outcome unit) (t : list event) : Prop :=
  (forall j r, EvValidate j r ∈ t -> j <= i) /\
  List.filter is_session t = [] /\
  List.filter is_exception_log t
    = [exception_log
         (RuntimeError ["validation error"; validation_msg vr])] /\
  o = Raise SystemExit.

(** The transfer and dump events of an export, in order. *)
Inductive transfer_then_dump : list event -> Prop :=
| ttd_none :
    transfer_then_dump []
| ttd_transfer_failed e :
    transfer_then_dump [EvTransfer var_pexport (Err e)]
| ttd_dumped r :
    transfer_then_dump
      [EvTransfer var_pexport (Ok tt); EvDumpMetadata var_pexport r].

(** The transfer, dump and terminate events of an export, with its
    outcome. *)
Inductive export_session : outcome unit -> list event -> Prop :=
| es_not_started o :
    o <> Ret tt -> export_session o []
| es_transfer_failed o e r :
    o <> Ret tt ->
    export_session o
      [EvTransfer var_pexport (Err e); EvTerminate var_pexport r]
| es_dump_failed o e r :
    o <> Ret tt ->
    export_session o
      [EvTransfer var_pexport (Ok tt); EvDumpMetadata var_pexport (Err e);
       EvTerminate var_pexport r]
| es_done :
    export_session (Ret tt)
      [EvTransfer var_pexport (Ok tt); EvDumpMetadata var_pexport (Ok tt)].

(** The transfer and terminate events of an import, with its outcome. *)
Inductive import_session : outcome unit -> list event -> Prop :=
| is_not_started o :
    o <> Ret tt -> import_session o []
| is_transfer_failed o e r :
    o <> Ret tt ->
    import_session o
      [EvTransfer var_pimport (Err e); EvTerminate var_pimport r]
| is_done :
    import_session (Ret tt)
      [EvTransfer var_pimport (Ok tt); EvTerminate var_pimport (Ok tt)]
| is_failed_late o r1 r2 :
    o <> Ret tt ->
    import_session o
      [EvTransfer var_pimport (Ok tt); EvTerminate var_pimport r1;
       EvTerminate var_pimport r2].

Definition is_transfer_or_terminate (e : event) : bool :=
  match e with
  | EvTransfer _ _ | EvTerminate _ _ => true
  | _ => false
  end.

(** The key that marks a legacy-engine project, and the patch that
    converts the destination project. *)
Definition marker : string := "default_project_engine_type".

Definition legacy_patch : gmap string json :=
  {[ "default_project_engine_type" := JStr "legacy_engine" ]}.

Definition is_legacy_step (e : event) : bool :=
  match e with
  | EvReadJson _ _ | EvCreateProject _ _ _ | EvTransfer _ _
  | EvTerminate _ _ | EvConvertToEngine _ _ _ => true
  | _ => false
  end.

Definition is_convert (e : event) : bool :=
  match e with EvConvertToEngine _ _ _ => true | _ => false end.

Definition is_create (e : event) : bool :=
  match e with EvCreateProject _ _ _ => true | _ => false end.

(** The transfer, terminate and patch events of an import whose metadata has
    the marker ([uses_engine]) or not, with the outcome. *)
Inductive patch_run (uses_engine : bool)
    : outcome unit -> list event -> Prop :=
| pr_not_started o :
    o <> Ret tt -> patch_run uses_engine o []
| pr_transfer_failed o e r :
    o <> Ret tt ->
    patch_run uses_engine o
      [EvTransfer var_pimport (Err e); EvTerminate var_pimport r]
| pr_terminate_failed o e r :
    o <> Ret tt ->
    patch_run uses_engine o
      [EvTransfer var_pimport (Ok tt); EvTerminate var_pimport (Err e);
       EvTerminate var_pimport r]
| pr_plain_done :
    uses_engine = false ->
    patch_run uses_engine (Ret tt)
      [EvTransfer var_pimport (Ok tt); EvTerminate var_pimport (Ok tt)]
| pr_plain_failed o r :
    uses_engine = false -> o <> Ret tt ->
    patch_run uses_engine o
      [EvTransfer var_pimport (Ok tt); EvTerminate var_pimport (Ok tt);
       EvTerminate var_pimport r]
| pr_patched_done :
    uses_engine = true ->
    patch_run uses_engine (Ret tt)
      [EvTransfer var_pimport (Ok tt); EvTerminate var_pimport (Ok tt);
       EvConvertToEngine var_pimport legacy_patch (Ok tt)]
| pr_patched_failed o r1 r2 :
    uses_engine = true -> o <> Ret tt ->
    patch_run uses_engine o
      [EvTransfer var_pimport (Ok tt); EvTerminate var_pimport (Ok tt);
       EvConvertToEngine var_pimport legacy_patch r1;
       EvTerminate var_pimport r2].

(** The same with the reading of the metadata and the creation of the
    project in front. *)
Inductive legacy_run : outcome unit -> list event -> Prop :=
| lr_unread o :
    o <> Ret tt -> legacy_run o []
| lr_unreadable o path e :
    o <> Ret tt -> legacy_run o [EvReadJson path (Err e)]
| lr_existing o path md k :
    patch_run (bool_decide (is_Some (md !! marker))) o k ->
    legacy_run o (EvReadJson path (Ok md) :: k)
| lr_created o path md md' r k :
    md' = delete marker md ->
    patch_run (bool_decide (is_Some (md !! marker))) o k ->
    legacy_run o
      (EvReadJson path (Ok md) :: EvCreateProject var_p md' r :: k).

Definition is_warning (e : event) : bool :=
  match e with EvLog WARNING _ _ _ => true | _ => false end.

Definition is_check_project (e : event) : bool :=
  match e with EvCheckProjectExist _ _ _ => true | _ => false end.

Definition is_new_importer (e : event) : bool :=
  match e with EvNewImporter _ _ _ => true | _ => false end.

Definition is_import_metadata (e : event) : bool :=
  match e with EvImportMetadata _ _ _ => true | _ => false end.

Definition is_read_json (e : event) : bool :=
  match e with EvReadJson _ _ => true | _ => false end.

(** The calls that write settings of the destination project. *)
Definition writes_settings (e : event) : bool :=
  match e with
  | EvCreateProject _ _ _ | EvConvertToEngine _ _ _ => true
  | _ => false
  end.

(** What an import does with the destination once it has the name of the
    project. *)
Definition after_metadata (e : event) : bool :=
  match e with
  | EvCheckProjectExist _ _ _ | EvCreateProject _ _ _
  | EvNewImporter var_pimport _ _ | EvTransfer _ _ | EvTerminate _ _
  | EvConvertToEngine _ _ _ | EvImportMetadata _ _ _ => true
  | _ => false
  end.

Definition next_token (pg : page) : string :=
  default EmptyString (pg_next_page_token pg).

Definition runtimes_of (r : option page) : list json :=
  match r with
  | Some pg => default [] (pg_runtimes pg)
  | None => []
  end.

Definition is_catalog_step (e : event) : bool :=
  match e with
  | EvGetAllRuntimes _ _ _ | EvParseRuntimes _ _ | EvOpenWrite _ _
  | EvDump _ _ _ => true
  | _ => false
  end.

(** The fetches of a pagination that starts with token [tok] and receives
    the responses [rs] in this order. *)
Fixpoint fetches (tok : string) (rs : list (option page)) : list event :=
  match rs with
  | [] => []
  | r :: rest =>
      EvGetAllRuntimes var_p tok (Ok r)
      :: fetches (match r with Some pg => next_token pg | None => tok end) rest
  end.

(** What the command does with the runtimes it has gathered, from the files
    [before]: the outcome, the files afterwards and the events. *)
Inductive catalog_written (runtimes : list json) (before : gmap string string)
    : outcome unit -> gmap string string -> list event -> Prop :=
| cw_nothing :
    runtimes = [] ->
    catalog_written runtimes before (Ret tt) before []
| cw_unparsed e :
    runtimes <> [] ->
    catalog_written runtimes before (Raise e) before
      [EvParseRuntimes runtimes (Err e)]
| cw_unopened doc home e :
    runtimes <> [] ->
    catalog_written runtimes before (Ret tt) before
      [EvParseRuntimes runtimes (Ok doc);
       EvOpenWrite (catalog_path home) (Err e)]
| cw_written doc home text err :
    runtimes <> [] ->
    catalog_written runtimes before (Ret tt)
      (<[catalog_path home := text]> before)
      [EvParseRuntimes runtimes (Ok doc);
       EvOpenWrite (catalog_path home) (Ok tt);
       EvDump doc text err].

(** A run of the command against a listing that gives the responses [rs],
    from the files [before]: it makes these fetches, in this order, and goes
    on with the runtimes of all of them. *)
Definition catalog_built (rs : list (option page)) (before : gmap string string)
    (o : outcome unit) (after : gmap string string) (k : list event) : Prop :=
  exists tail,
    k = fetches EmptyString rs ++ tail /\
    catalog_written (concat (runtimes_of <$> rs)) before o after tail.

Section Listing.
Context {W Obj Validator : Type} {collab : Collaborators W Obj Validator}.

(** The listing gives response [r] to token [tok], whatever the state of the
    world. *)
Definition answers (tok : string) (r : option page) : Prop :=
  forall (o : Obj) (w : W), (get_all_runtimes_v2 o tok w).1 = Ok r.

(** The listing gives the responses [rs] to the loop that starts with token
    [tok]: pages with a next token as long as the list goes on, and at its
    end either a page without one or no response. *)
Fixpoint serves_more (tok : string) (rs : list (option page)) : Prop :=
  match rs with
  | [] => tok = EmptyString
  | None :: rest => tok <> EmptyString /\ answers tok None /\ rest = []
  | Some pg :: rest =>
      tok <> EmptyString /\ answers tok (Some pg) /\
      serves_more (next_token pg) rest
  end.
End Listing.

(** ** More of what the runs look like

    Kinds of events, messages and shapes for the properties of the
    configuration, of the logging set-up, of the handler, of the objects
    that the commands build, of the validator loop and of the pagination. *)

(** *** The configuration file *)

Definition missing_file_message (file_path : string) : event :=
  EvPrint ["Validation error: cannot find config file:"; file_path].

Definition missing_key_message (key : string) : event :=
  EvPrint ["Key " +:+ key +:+ " is missing from config file."].

Definition config_file_error : exn :=
  RuntimeError ["validation error"; "Cannot find config file"].

(** [config.get] has no such section or no such option. *)
Definition is_missing (e : exn) : bool :=
  match e with
  | NoOptionError _ _ | NoSectionError _ => true
  | _ => false
  end.

(** The options read so far are those of the parser. *)
Definition reads (opts : string -> result string) (cfg : gmap string string)
    : Prop :=
  forall k v, cfg !! k = Some v -> opts k = Ok v.

Section ConfigKeys.
Context {W Obj Validator : Type} {collab : Collaborators W Obj Validator}.

(** The keys of the loop of [_read_config_file], in its order. *)
Definition required_keys : list string :=
  [USERNAME_KEY; URL_KEY; API_V1_KEY; OUTPUT_DIR_KEY].

(** The keys of the dictionary it returns. *)
Definition config_keys : gset string :=
  {[ USERNAME_KEY; URL_KEY; API_V1_KEY; OUTPUT_DIR_KEY; CA_PATH_KEY ]}.

(** The parser answers [config.get(section, key)] with [opts key], whatever
    the state of the world. *)
Definition parsed (section : string) (opts : string -> result string) : Prop :=
  forall (key : string) (w : W), (config_get section key w).1 = opts key.

Definition export_ini (s : state W Obj) : string :=
  expanduser "~" (world s) +:+ "/.cmlutils/export-config.ini".

Definition import_ini (s : state W Obj) : string :=
  expanduser "~" (world s) +:+ "/.cmlutils/import-config.ini".
End ConfigKeys.

(** The operation [op] returns, whatever the state of the world. *)
Definition succeeds {W A} (op : W -> result A * W) : Prop :=
  forall w, exists a, (op w).1 = Ok a.

Section CatalogReady.
Context {W Obj Validator : Type} {collab : Collaborators W Obj Validator}.

(** Nothing stands in the way of the catalog command before its first
    fetch: the configuration file is there, it can be read and its
    ["DEFAULT"] section has the four options (the CA path may be missing);
    paths resolve, the log directory and the log handlers can be made, and
    the importer can be built. *)
Definition catalog_ready (s : state W Obj) : Prop :=
  os_path_exists (import_ini s) (world s) = true /\
  succeeds (config_read (import_ini s)) /\
  (forall k, k ∈ required_keys -> succeeds (config_get "DEFAULT" k)) /\
  succeeds (config_get_fallback "DEFAULT" CA_PATH_KEY EmptyString) /\
  (forall path, succeeds (get_absolute_path path)) /\
  (forall dir, succeeds (os_makedirs dir)) /\
  (forall file, succeeds (logging_basicConfig file)) /\
  (forall a, succeeds (ProjectImporter a)).
End CatalogReady.

(** *** The logging set-up *)

Definition is_log (e : event) : bool :=
  match e with EvLog _ _ _ _ => true | _ => false end.

Definition is_info_log (e : event) : bool :=
  match e with EvLog INFO _ _ _ => true | _ => false end.

Section LoggingSetup.
Context {W Obj Validator : Type} {collab : Collaborators W Obj Validator}.

(** What [_configure_project_command_logging] does when nothing fails. *)
Definition logging_setup (log_filedir project_name : string) : list event :=
  [EvMakedirs log_filedir (Ok tt);
   EvLoggingConfigured (log_filedir +:+ LOG_FILE) (Ok tt);
   EvSetLogRecordFactory project_name].

(** A trace in which nothing is logged, or which starts with the set-up of
    the logging for [project_name] below some output directory. *)
Definition set_up_first (project_name : string) (t : list event) : Prop :=
  List.filter is_log t = [] \/
  exists output_dir rest,
    t = logging_setup (path_join output_dir [project_name; "logs"])
          project_name ++ rest.

(** Every record of the trace is logged after the set-up. *)
Definition logged_after_setup (project_name : string) (t : list event)
    : Prop :=
  forall pre e post,
    is_log e = true -> t = pre ++ e :: post ->
    exists output_dir,
      logging_setup (path_join output_dir [project_name; "logs"]) project_name
      `prefix_of` pre.
End LoggingSetup.

(** *** The end of a run *)

Definition is_exit (e : event) : bool :=
  match e with EvExit => true | _ => false end.

(** The steps that end a run of the export or of the import: the last call
    of the work, and what the [except:] block does. *)
Definition is_closing (e : event) : bool :=
  match e with
  | EvLog _ _ _ (Some _) | EvTerminate _ _ | EvExit
  | EvDumpMetadata _ _ | EvImportMetadata _ _ _ => true
  | _ => false
  end.

(** The [except:] block while [e] is handled, with the outcome of the
    command: it logs [e]; when the object that transfers is bound it calls
    terminate on it; it calls [exit], unless terminate raised. *)
Inductive handler_end (x : var) (e : exn)
    : bool -> outcome unit -> list event -> Prop :=
| he_unbound :
    handler_end x e false (Raise SystemExit) [exception_log e; EvExit]
| he_closed :
    handler_end x e true (Raise SystemExit)
      [exception_log e; EvTerminate x (Ok tt); EvExit]
| he_close_failed e' :
    handler_end x e true (Raise e')
      [exception_log e; EvTerminate x (Err e')].

(** The closing steps of an export, with its outcome. *)
Inductive export_end : outcome unit -> list event -> Prop :=
| ee_returned :
    export_end (Ret tt) [EvDumpMetadata var_pexport (Ok tt)]
| ee_raised e :
    export_end (Raise e) []
| ee_handled e bound o h :
    handler_end var_pexport e bound o h -> export_end o h
| ee_dump_failed e o h :
    handler_end var_pexport e true o h ->
    export_end o (EvDumpMetadata var_pexport (Err e) :: h).

(** The closing steps of an import, with its outcome. *)
Inductive import_end : outcome unit -> list event -> Prop :=
| ie_returned id :
    import_end (Ret tt)
      [EvTerminate var_pimport (Ok tt);
       EvImportMetadata var_pimport id (Ok tt)]
| ie_raised e :
    import_end (Raise e) []
| ie_handled e bound o h :
    handler_end var_pimport e bound o h -> import_end o h
| ie_terminate_failed e o h :
    handler_end var_pimport e true o h ->
    import_end o (EvTerminate var_pimport (Err e) :: h)
| ie_patch_failed e o h :
    handler_end var_pimport e true o h ->
    import_end o (EvTerminate var_pimport (Ok tt) :: h)
| ie_metadata_failed id e o h :
    handler_end var_pimport e true o h ->
    import_end o
      (EvTerminate var_pimport (Ok tt)
       :: EvImportMetadata var_pimport id (Err e) :: h).

(** A run in which [exit] was called: it is the last thing the run did, the
    command ended with [SystemExit], and one exception was logged. *)
Definition left_through_exit (o : outcome unit) (t : list event) : Prop :=
  o = Raise SystemExit /\
  last t = Some EvExit /\
  exists e, List.filter is_exception_log t = [exception_log e].

(** A run in which the last terminate call raised [e]: the command ended
    with [e], without calling [exit], while it was handling an exception. *)
Definition left_through_terminate (e : exn) (o : outcome unit)
    (t : list event) : Prop :=
  o = Raise e /\
  List.filter is_exit t = [] /\
  exists e0, List.filter is_exception_log t = [exception_log e0].

(** *** The objects of a run *)

Definition is_new_exporter (e : event) : bool :=
  match e with EvNewExporter _ _ _ => true | _ => false end.

Definition is_init_validators (e : event) : bool :=
  match e with EvInitValidators _ _ => true | _ => false end.

(** The settings that the objects of one run share. *)
Definition exporter_settings (a : exporter_args)
    : string * string * string * string * string :=
  (ex_host a, ex_project_name a, ex_api_key a, ex_top_level_dir a,
   ex_ca_path a).

Definition importer_settings (a : importer_args)
    : string * string * string * string * string :=
  (im_host a, im_project_name a, im_api_key a, im_top_level_dir a,
   im_ca_path a).

Definition validator_settings (a : validator_args)
    : string * string * string * string * string :=
  (va_host a, va_project_name a, va_apiv1_key a, va_top_level_directory a,
   va_ca_path a).

Definition creating_log (project_name : string) : event :=
  EvLog INFO "Creating project %s to migrate files and metadata."
    [JStr project_name] None.

(** *** The validator loop *)

(** Validator [i] was evaluated and reported PASSED. *)
Definition passed (i : nat) (e : event) : Prop :=
  exists vr, e = EvValidate i (Ok vr) /\ validation_status vr = PASSED.

(** What an exception [e] raised by validator [i] entails for a run that
    ended with outcome [o] and trace [t]. *)
Definition stopped_by_error (i : nat) (e : exn)
    (o : outcome unit) (t : list event) : Prop :=
  (forall j r, EvValidate j r ∈ t -> j <= i) /\
  List.filter is_session t = [] /\
  List.filter is_error_log t = [] /\
  List.filter is_exception_log t = [exception_log e] /\
  o = Raise SystemExit.

(** *** The pagination *)

Definition is_fetch (e : event) : bool :=
  match e with EvGetAllRuntimes _ _ _ => true | _ => false end.

Definition is_parse (e : event) : bool :=
  match e with EvParseRuntimes _ _ => true | _ => false end.

Definition is_open_write (e : event) : bool :=
  match e with EvOpenWrite _ _ => true | _ => false end.

Definition is_dump (e : event) : bool :=
  match e with EvDump _ _ _ => true | _ => false end.

Definition empty_response_log : event :=
  EvLog INFO
    "populate_engine_runtimes_mapping: Get Runtimes API returned empty response"
    [] None.

Definition no_runtimes_log : event :=
  EvLog ERROR
    "populate_engine_runtimes_mapping: No runtimes present in the get_runtimes API response"
    [] None.

Definition write_error_log (path : string) : event :=
  EvLog ERROR
    "populate_engine_runtimes_mapping: Please make sure Write Perms are set write/overwrite data.Encountered Error during write/overwrite data in "
    [JStr path] None.

(** The events of one run of the pagination loop entered with the token
    [tok] and the runtimes gathered so far, with the outcome of the loop: it
    ends at an empty token, goes on after a page, stops at a missing
    response, or the fetch raises; [NoFuel] is the loop cut off. *)
Inductive paginated
    : string -> list json -> outcome (list json) -> list event -> Prop :=
| paginated_end runtimes :
    paginated EmptyString runtimes (Ret runtimes) []
| paginated_page tok runtimes pg o t :
    tok <> EmptyString ->
    paginated (next_token pg) (runtimes ++ runtimes_of (Some pg)) o t ->
    paginated tok runtimes o (EvGetAllRuntimes var_p tok (Ok (Some pg)) :: t)
| paginated_lost tok runtimes :
    tok <> EmptyString ->
    paginated tok runtimes (Ret runtimes)
      [EvGetAllRuntimes var_p tok (Ok None)]
| paginated_raise tok runtimes e :
    tok <> EmptyString ->
    paginated tok runtimes (Raise e) [EvGetAllRuntimes var_p tok (Err e)]
| paginated_cut tok runtimes :
    tok <> EmptyString ->
    paginated tok runtimes NoFuel [].

(** The runtimes of the pages that the fetches of a run returned, in the
    order of the fetches. *)
Definition gathered (t : list event) : list json :=
  concat (map (fun e => match e with
                         | EvGetAllRuntimes _ _ (Ok r) => runtimes_of r
                         | _ => []
                         end) t).

(** Fetches that follow one another: each is made with the token that the
    page before it gave, which is not empty. *)
Inductive token_chain : string -> list event -> Prop :=
| chain_none tok :
    token_chain tok []
| chain_last tok r :
    token_chain tok [EvGetAllRuntimes var_p tok r]
| chain_next tok pg e rest :
    next_token pg <> EmptyString ->
    token_chain (next_token pg) (e :: rest) ->
    token_chain tok (EvGetAllRuntimes var_p tok (Ok (Some pg)) :: e :: rest).

(** *** More scripts *)

(** The script [sc] with other answers for the configuration, for the
    construction of the exporter that transfers, for the transfer, for
    terminate and for the opening of the catalog file. *)
Definition amended (sc : script) (config_file : bool)
    (config : string -> result string)
    (new_transfer_object transfer terminate opening : result unit)
    : script := {|
  sc_config_file := config_file;
  sc_config := config;
  sc_export_creator := sc_export_creator sc;
  sc_import_creator := sc_import_creator sc;
  sc_validators := sc_validators sc;
  sc_new_transfer_object := new_transfer_object;
  sc_transfer := transfer;
  sc_dump_metadata := sc_dump_metadata sc;
  sc_terminate := terminate;
  sc_metadata := sc_metadata sc;
  sc_project_exist := sc_project_exist sc;
  sc_create_project := sc_create_project sc;
  sc_convert := sc_convert sc;
  sc_import_metadata := sc_import_metadata sc;
  sc_runtimes := sc_runtimes sc;
  sc_open_w := opening;
  sc_json_dump := sc_json_dump sc
|}.

(** There is no configuration file. *)
Definition no_config_file : script :=
  amended all_good false good_config (Ok tt) (Ok tt) (Ok tt) (Ok tt).

(** The section of the project has no [apiv1_key]. *)
Definition config_without_api_key (option : string) : result string :=
  if bool_decide (option = "apiv1_key")
  then Err (NoOptionError option "proj")
  else good_config option.

Definition no_api_key : script :=
  amended all_good true config_without_api_key (Ok tt) (Ok tt) (Ok tt) (Ok tt).

(** The section of the project has a CA path too. *)
Definition full_config (option : string) : result string :=
  if bool_decide (option = "ca_path") then Ok "/etc/ca.pem"
  else good_config option.

Definition with_ca_path : script :=
  amended all_good true full_config (Ok tt) (Ok tt) (Ok tt) (Ok tt).

(** What [_read_config_file] returns for [good_config]. *)
Definition good_options : gmap string string :=
  {[ "username" := "admin"; "url" := "https://cml.example";
     "apiv1_key" := "k1"; "output_dir" := "/data/out";
     "ca_path" := EmptyString ]}.

(** The exporter that transfers cannot be built. *)
Definition no_transfer_object : script :=
  amended all_good true good_config (Err (OtherError "no ssh")) (Ok tt)
    (Ok tt) (Ok tt).

(** The transfer fails, and then terminate fails too. *)
Definition broken_session : script :=
  amended all_good true good_config (Ok tt) (Err (OtherError "rsync failed"))
    (Err (OtherError "session lost")) (Ok tt).

(** The second validator raises. *)
Definition validator_crash : script :=
  scenario found [passes "project exists"; Err (OtherError "timeout")]
    sample_metadata None (Ok tt) no_listing.

(** The catalog file cannot be opened for writing. *)
Definition read_only_home : script :=
  amended paged_listing true good_config (Ok tt) (Ok tt) (Ok tt)
    (Err (OtherError "permission denied")).

(** The listing has one page, without runtimes. *)
Definition empty_page : page :=
  {| pg_runtimes := Some []; pg_next_page_token := None |}.

Definition nothing_listed : script :=
  scenario found two_checks sample_metadata None (Ok tt)
    (fun _ => Ok (Some empty_page)).

(** The listing raises on its second page. *)
Definition second_page_fails (token : string) : result (option page) :=
  if bool_decide (token = EmptyString) then Ok (Some page_one)
  else Err (OtherError "listing failed").

Definition failing_listing : script :=
  scenario found two_checks sample_metadata None (Ok tt) second_page_fails.

(** The arguments of the exporters of [all_good]. *)
Definition first_exporter : exporter_args :=
  {| ex_host := "https://cml.example"; ex_username := "admin";
     ex_project_name := "proj"; ex_api_key := "k1";
     ex_top_level_dir := "/data/out"; ex_ca_path := EmptyString;
     ex_project_slug := Some "proj"; ex_owner_type := Some EmptyString |}.

Definition creator_exporter : exporter_args :=
  {| ex_host := "https://cml.example"; ex_username := "alice";
     ex_project_name := "proj"; ex_api_key := "k1";
     ex_top_level_dir := "/data/out"; ex_ca_path := EmptyString;
     ex_project_slug := Some "alice/churn"; ex_owner_type := Some "user" |}.

(** The arguments of the validators of the export of [all_good]. *)
Definition creator_validators : validator_args :=
  {| va_host := "https://cml.example"; va_username := "alice";
     va_project_name := "proj"; va_top_level_directory := "/data/out";
     va_apiv1_key := "k1"; va_ca_path := EmptyString;
     va_project_slug := Some (Some "alice/churn") |}.

(** The importer that transfers in [all_good]: the metadata has no team. *)
Definition plain_importer : importer_args :=
  {| im_host := "https://cml.example"; im_username := JStr "admin";
     im_project_name := "proj"; im_api_key := "k1";
     im_top_level_dir := "/data/out"; im_ca_path := EmptyString;
     im_project_slug := Some "alice/churn" |}.

(** ** Rules of the logic *)

Section Rules.
Context {W Obj : Type}.
Implicit Types s : state W Obj.

Lemma wp_bind {A B} (m : M W Obj A) (k : A -> M W Obj B) s Q :
  wp m s (then_ k Q) -> wp (m ≫= k) s Q.
Proof.
  unfold wp, then_, outcome_of, state_of, trace_of, mbind, M_bind.
  destruct (m s) as [[[a|e|] s1] t1]; simpl; auto.
  unfold wp, outcome_of, state_of, trace_of.
  destruct (k a s1) as [[o2 s2] t2]; simpl; auto.
Qed.

Lemma wp_try {A} (body : M W Obj A) catches h s Q :
  wp body s (caught catches h Q) -> wp (try_except body catches h) s Q.
Proof.
  unfold wp, caught, outcome_of, state_of, trace_of, try_except.
  destruct (body s) as [[[a|e|] s1] t1]; simpl; auto.
  destruct (catches e); simpl; auto.
  unfold wp, outcome_of, state_of, trace_of.
  destruct (h e s1) as [[o2 s2] t2]; simpl; auto.
Qed.

Lemma wp_call {A} (ev : result A -> event) (op : W -> result A * W) s Q :
  (forall r w, op (world s) = (r, w) ->
     Q (of_result r) (mkState w (local s) (files s)) [ev r]) ->
  wp (call ev op) s Q.
Proof.
  unfold wp, outcome_of, state_of, trace_of, call. intros H.
  destruct (op (world s)) as [r w] eqn:E. simpl. auto.
Qed.

Lemma wp_call_quiet {A} (op : W -> result A * W) s Q :
  (forall r w, op (world s) = (r, w) ->
     Q (of_result r) (mkState w (local s) (files s)) []) ->
  wp (call_quiet op) s Q.
Proof.
  unfold wp, outcome_of, state_of, trace_of, call_quiet. intros H.
  destruct (op (world s)) as [r w] eqn:E. simpl. auto.
Qed.

Lemma wp_val {A} (m : M W Obj A) s Q o s' t :
  m s = (o, s', t) -> Q o s' t -> wp m s Q.
Proof. unfold wp, outcome_of, state_of, trace_of. intros ->. auto. Qed.

Lemma wp_mono {A} (m : M W Obj A) s
    (Q R : outcome A -> state W Obj -> list event -> Prop) :
  wp m s R -> (forall o s' t, R o s' t -> Q o s' t) -> wp m s Q.
Proof. unfold wp. auto. Qed.
End Rules.

(** The validator loop leaves the local variable and the files alone, and
    its events are those of [validated]. *)
Lemma wp_run_validators {W Obj Validator} `{!Collaborators W Obj Validator}
    (report : string -> event) (rep : string -> M W Obj unit)
    (validators : list Validator) (i : nat) (s : state W Obj) Q :
  (forall msg s', rep msg s' = (Ret tt, s', [report msg])) ->
  (forall o w t, validated report i o t ->
     Q o (mkState w (local s) (files s)) t) ->
  wp (run_validators rep i validators) s Q.
Proof.
  intros Hrep. revert i s Q.
  induction validators as [|v rest IH]; intros i s Q HQ; simpl.
  - eapply wp_val; [reflexivity|]. destruct s. apply HQ. constructor.
  - apply wp_bind, wp_call. intros [vr|e] w Hv; unfold of_result, then_.
    + destruct (is_FAILED (validation_status vr)) eqn:Hf.
      * apply wp_bind. eapply wp_val; [apply Hrep|]. unfold then_.
        eapply wp_val; [reflexivity|]. simpl. apply HQ.
        by apply validated_fail.
      * apply IH. intros o w' t Hval. simpl. apply HQ.
        by apply validated_pass.
    + apply HQ. apply validated_raise.
Qed.

Lemma validated_filter (f : event -> bool) report i o t :
  validated report i o t ->
  (forall j r, f (EvValidate j r) = false) ->
  (forall msg, f (report msg) = false) ->
  List.filter f t = [].
Proof.
  intros H Hv Hr. induction H; simpl; rewrite ?Hv, ?Hr; auto.
Qed.

Lemma validated_index report i o t j r :
  validated report i o t ->
  (forall msg, is_validate (report msg) = false) ->
  EvValidate j r ∈ t -> i <= j.
Proof.
  intros H Hr. induction H; intros Hin.
  - by apply elem_of_nil in Hin.
  - apply elem_of_cons in Hin as [Hin|Hin]; [simplify_eq; lia|].
    apply IHvalidated in Hin. lia.
  - apply elem_of_cons in Hin as [Hin|Hin]; [simplify_eq; lia|].
    apply list_elem_of_singleton in Hin.
    apply (f_equal is_validate) in Hin. rewrite Hr in Hin. discriminate.
  - apply list_elem_of_singleton in Hin. simplify_eq. lia.
Qed.

(** A loop that ran to its end met no FAILED result. *)
Lemma validated_passed report i t j vr :
  validated report i (Ret tt) t ->
  EvValidate j (Ok vr) ∈ t ->
  is_FAILED (validation_status vr) = false.
Proof.
  intros H. remember (Ret tt) as o eqn:Ho.
  induction H; intros Hin; try discriminate.
  - by apply elem_of_nil in Hin.
  - apply elem_of_cons in Hin as [Hin|Hin]; [by simplify_eq|auto].
Qed.

(** A FAILED result ends the loop: it is the last validator evaluated, and
    the loop raises with its message. *)
Lemma validated_failed report i o t k vr :
  validated report i o t ->
  (forall msg, is_validate (report msg) = false) ->
  EvValidate k (Ok vr) ∈ t ->
  is_FAILED (validation_status vr) = true ->
  o = Raise (RuntimeError ["validation error"; validation_msg vr]) /\
  forall j r, EvValidate j r ∈ t -> j <= k.
Proof.
  intros H Hr. induction H; intros Hin Hf.
  - by apply elem_of_nil in Hin.
  - apply elem_of_cons in Hin as [Hin|Hin]; [simplify_eq; congruence|].
    destruct (IHvalidated Hin Hf) as [-> Hle]. split; [done|].
    intros j r Hj. apply elem_of_cons in Hj as [Hj|Hj]; [|by eapply Hle].
    simplify_eq. pose proof (validated_index _ _ _ _ _ _ H0 Hr Hin). lia.
  - apply elem_of_cons in Hin as [Hin|Hin].
    + simplify_eq. split; [done|]. intros j r Hj.
      apply elem_of_cons in Hj as [Hj|Hj]; [simplify_eq; lia|].
      apply list_elem_of_singleton in Hj.
      apply (f_equal is_validate) in Hj. rewrite Hr in Hj. discriminate.
    + apply list_elem_of_singleton in Hin.
      apply (f_equal is_validate) in Hin. rewrite Hr in Hin. discriminate.
  - apply list_elem_of_singleton in Hin. simplify_eq.
Qed.

(** The loop is over a list: it always ends. *)
Lemma validated_ends report i t : ~ validated report i NoFuel t.
Proof.
  intros H. remember NoFuel as o eqn:Ho. induction H; auto; discriminate.
Qed.

(** Stepping through a program with the rules. *)
Ltac wp_prim := eapply wp_val; [reflexivity | cbv beta iota].

(** The equations a proof will use are kept: what the creation call and the
    listing gave back, the lookups in the metadata document, and the tests
    that are written with [bool_decide]. *)
Ltac wp_step :=
  cbv beta iota zeta; cbn [world local files];
  lazymatch goal with
  | |- wp (mbind _ _) _ _ => apply wp_bind
  | |- wp (try_except _ _ _) _ _ => apply wp_try
  | |- wp (call _ ?op) _ _ =>
      apply wp_call; let r := fresh "r" in let H := fresh "H" in
      intros r ? H;
      lazymatch op with
      | context [create_project_v2] => idtac
      | context [get_all_runtimes_v2] => idtac
      | _ => clear H
      end;
      destruct r; unfold of_result
  | |- wp (call_quiet _) _ _ =>
      apply wp_call_quiet; let r := fresh "r" in
      intros r ? _; destruct r; unfold of_result
  | |- wp (run_validators _ _ _) _ _ =>
      eapply wp_run_validators;
      [ intros; reflexivity
      | let o := fresh "o" in let Hval := fresh "Hval" in
        intros o ? ? Hval; destruct o;
        [ | | by apply validated_ends in Hval ] ]
  | |- wp (mret _) _ _ => wp_prim
  | |- wp (raise _) _ _ => wp_prim
  | |- wp (emit _) _ _ => wp_prim
  | |- wp (log _ _ _) _ _ => wp_prim
  | |- wp (ask _) _ _ => wp_prim
  | |- wp get_local _ _ => wp_prim
  | |- wp (set_local _) _ _ => wp_prim
  | |- wp (set_file _ _) _ _ => wp_prim
  | |- wp (getitem ?d ?k) _ _ =>
      unfold getitem at 1;
      lazymatch type of d with
      | gmap string string => destruct (d !! k)
      | _ => destruct (d !! k) eqn:?
      end
  | |- wp (match ?x with _ => _ end) _ _ =>
      lazymatch x with
      | bool_decide _ => destruct x eqn:?
      | _ => destruct x
      end
  | |- then_ _ _ _ _ _ => unfold then_ at 1
  | |- caught _ _ _ _ _ _ => unfold caught at 1; unfold catch_all
  | |- if ?c then _ else _ => destruct c
  | |- match ?x with _ => _ end => destruct x
  end.

Ltac wp_export :=
  unfold project_export_cmd, _read_config_file,
    _configure_project_command_logging, new_exporter, handler,
    terminate_if_bound, exit;
  cbn [read_keys];
  repeat wp_step.

Ltac wp_import :=
  unfold project_import_cmd, _read_config_file,
    _configure_project_command_logging, new_importer, create_project, handler,
    terminate_if_bound, exit;
  cbn [read_keys];
  repeat wp_step.

(** What a projection of a trace says about the trace itself. *)
Lemma filter_elem (f : event -> bool) e t :
  e ∈ t -> f e = true -> e ∈ List.filter f t.
Proof.
  rewrite !list_elem_of_In. intros. apply List.filter_In. auto.
Qed.

Lemma elem_filter (f : event -> bool) e t :
  e ∈ List.filter f t -> e ∈ t /\ f e = true.
Proof. rewrite !list_elem_of_In. apply List.filter_In. Qed.

Lemma filter_split (f : event -> bool) pre e post :
  f e = true ->
  List.filter f (pre ++ e :: post)
  = List.filter f pre ++ e :: List.filter f post.
Proof. intros H. rewrite List.filter_app. simpl. by rewrite H. Qed.

Lemma filter_sub (f g : event -> bool) t :
  (forall e, f e = true -> g e = true) ->
  List.filter f (List.filter g t) = List.filter f t.
Proof.
  intros H. induction t as [|e t IH]; simpl; auto.
  destruct (g e) eqn:Hg; simpl.
  - destruct (f e); by rewrite IH.
  - destruct (f e) eqn:Hf; auto. apply H in Hf. congruence.
Qed.

Lemma filter_sublist (f : event -> bool) t : List.filter f t `sublist_of` t.
Proof.
  induction t as [|e t IH]; simpl; [constructor|].
  destruct (f e); by constructor.
Qed.

(** Where an element sits in a list that is written out. *)
Lemma app_cons_inv {A} (l1 l2 k : list A) x y :
  l1 ++ x :: l2 = y :: k ->
  (l1 = [] /\ x = y /\ l2 = k) \/
  (exists l1', l1 = y :: l1' /\ l1' ++ x :: l2 = k).
Proof.
  destruct l1 as [|a l1]; simpl; intros H; simplify_eq; eauto.
Qed.

Lemma app_cons_nil {A} (l1 l2 : list A) x : l1 ++ x :: l2 = [] -> False.
Proof. by destruct l1. Qed.

(** Solve [l1 ++ x :: l2 = <a list written out>] for [l1] and [l2]. *)
Ltac peel H :=
  repeat first
    [ by apply app_cons_nil in H
    | let l := fresh "l" in let Hl := fresh "Hl" in
      apply app_cons_inv in H as [(Hl & ? & ?)|(l & Hl & H)];
      [simplify_eq|] ].

Ltac sublist_search :=
  repeat first
    [ apply sublist_nil | apply sublist_skip | apply sublist_cons ].

(** Closing one path of a run: compute the projection [f] of its trace. *)
Ltac units := repeat match goal with u : unit |- _ => destruct u end.

Ltac project f :=
  cbn [app List.filter f];
  rewrite ?List.filter_app;
  repeat match goal with
    | H : validated _ _ _ ?t |- context [List.filter ?g ?t] =>
        rewrite (validated_filter g _ _ _ _ H) by (intros; reflexivity)
    end;
  cbn [app List.filter f];
  units.

Ltac project_in f H :=
  cbn [app List.filter f void tuple2 tuple3] in H;
  rewrite ?List.filter_app in H;
  repeat match type of H with
    | context [List.filter ?g ?t] =>
        match goal with
        | Hv : validated _ _ _ t |- _ =>
            rewrite (validated_filter g _ _ _ _ Hv) in H
              by (intros; reflexivity)
        end
    end;
  cbn [app List.filter f] in H;
  rewrite ?app_nil_r in H.

(** Membership in a list that is written out. *)
Ltac in_list :=
  repeat match goal with
    | H : _ ∈ [] |- _ => by apply elem_of_nil in H
    | H : _ ∈ _ :: _ |- _ =>
        apply elem_of_cons in H as [H|H]; [try discriminate H; simplify_eq|]
    end.

(** What the presence of an event of kind [f] says on the path at hand. *)
Ltac use_event f H :=
  apply (filter_elem f) in H; [|reflexivity]; project_in f H; in_list.

(** Cases of a lemma that lists the possible projections of a trace. *)
Ltac shape_inv Hs :=
  inversion Hs; subst;
  repeat match goal with
    | H : _ = List.filter _ _ |- _ => rewrite <- H in *; clear H
    end.

(** Show [e ∈ t] for an event of kind [f] by computing the projection. *)
Ltac find_event f :=
  eapply proj1, (elem_filter f); project f; rewrite ?app_nil_r;
  repeat first [apply list_elem_of_here | apply list_elem_of_further].

(** One path of a run, for [stopped_by]. *)
Ltac validation_path :=
  let i := fresh "i" in let vr := fresh "vr" in
  let Hin := fresh "Hin" in let Hf := fresh "Hf" in
  intros i vr Hin Hf; units;
  apply (filter_elem is_validate) in Hin; [|reflexivity];
  project_in is_validate Hin;
  try (by apply elem_of_nil in Hin);
  apply elem_filter in Hin as [Hin _];
  lazymatch goal with
  | Hv : validated _ _ (Ret _) _ |- _ =>
      pose proof (validated_passed _ _ _ _ _ Hv Hin); congruence
  | Hv : validated _ _ (Raise _) _ |- _ =>
      let Hle := fresh "Hle" in let Heq := fresh "Heq" in
      destruct (validated_failed _ _ _ _ _ _ Hv (fun _ => eq_refl) Hin Hf)
        as [Heq Hle];
      injection Heq as ->;
      split; [|split; [|split]];
      [ let j := fresh "j" in let r := fresh "r" in let Hj := fresh "Hj" in
        intros j r Hj;
        apply (filter_elem is_validate) in Hj; [|reflexivity];
        project_in is_validate Hj;
        apply elem_filter in Hj as [Hj _]; by eapply Hle
      | by project is_session
      | by project is_exception_log
      | reflexivity ]
  end.

(** ** The export *)

Section ExportCommand.
Context {W Obj Validator : Type} {collab : Collaborators W Obj Validator}.

Lemma export_session_events pn (s : state W Obj) :
  export_session (outcome_of (project_export_cmd pn) s)
    (List.filter is_session (trace_of (project_export_cmd pn) s)).
Proof.
  change (wp (project_export_cmd pn) s
            (fun o _ t => export_session o (List.filter is_session t))).
  wp_export; project is_session; by constructor.
Qed.

Lemma export_transfer_then_dump pn (s : state W Obj) :
  transfer_then_dump
    (List.filter is_transfer_or_dump (trace_of (project_export_cmd pn) s)).
Proof.
  change (wp (project_export_cmd pn) s
            (fun _ _ t =>
               transfer_then_dump (List.filter is_transfer_or_dump t))).
  wp_export; project is_transfer_or_dump; constructor.
Qed.

(** C8: an export writes the project metadata only after the file transfer
    has returned: every dump event of a run has the completed transfer
    before it, and a run whose transfer raised has no dump event. *)
Theorem export_metadata_written_after_transfer pn (s : state W Obj) :
  let t := trace_of (project_export_cmd pn) s in
  (forall pre x r post,
     t = pre ++ EvDumpMetadata x r :: post ->
     EvTransfer x (Ok tt) ∈ pre) /\
  (forall x e, EvTransfer x (Err e) ∈ t ->
     forall y r, EvDumpMetadata y r ∉ t).
Proof.
  intros t. pose proof (export_transfer_then_dump pn s) as Hs.
  fold t in Hs. split.
  - intros pre x r post Ht. rewrite Ht in Hs.
    rewrite filter_split in Hs by reflexivity.
    destruct (List.filter is_transfer_or_dump pre) as [|a [|b l]] eqn:Hpre;
      simpl in Hs; inversion Hs; subst; try (by destruct l).
    apply (elem_filter is_transfer_or_dump). rewrite Hpre. constructor.
  - intros x e Hin y r Hd.
    apply filter_elem with (f := is_transfer_or_dump) in Hin, Hd; try reflexivity.
    inversion Hs as [Heq|e' Heq|r' Heq]; rewrite <- Heq in Hin, Hd.
    + inversion Hin.
    + inversion Hd as [|? ? ? Hd']; inversion Hd'.
    + inversion Hin as [|? ? ? Hin']; subst. inversion Hin' as [|? ? ? H1]. inversion H1.
Qed.

Lemma export_stopped_by_failed_validator pn (s : state W Obj) i vr :
  EvValidate i (Ok vr) ∈ trace_of (project_export_cmd pn) s ->
  is_FAILED (validation_status vr) = true ->
  stopped_by i vr (outcome_of (project_export_cmd pn) s)
    (trace_of (project_export_cmd pn) s).
Proof.
  revert i vr.
  change (wp (project_export_cmd pn) s
            (fun o _ t =>
               forall i vr,
                 EvValidate i (Ok vr) ∈ t ->
                 is_FAILED (validation_status vr) = true ->
                 stopped_by i vr o t)).
  wp_export; validation_path.
Qed.

(** C6: when the creator lookup of an export finds no creator, the export
    logs the error, raises and leaves through the handler with
    [SystemExit]; the lookup has been made once, and nothing that follows
    identity resolution has happened: no validator, no second exporter, no
    transfer, no dump, no terminate. *)
Theorem export_aborts_when_project_not_found pn (s : state W Obj) x rest :
  let o := outcome_of (project_export_cmd pn) s in
  let t := trace_of (project_export_cmd pn) s in
  EvGetCreatorUsername x (Ok (None :: rest)) ∈ t ->
  o = Raise SystemExit /\
  List.filter is_exception_log t
    = [exception_log (RuntimeError ["Validation error"])] /\
  (exists username,
     List.filter is_error_log t
     = [EvLog ERROR
          "Validation error: Cannot find project - %s under username %s"
          [JStr pn; JStr username] None]) /\
  length (List.filter is_get_creator t) = 1 /\
  List.filter after_identity t = [].
Proof.
  intros o t. subst o t. revert x rest.
  change (wp (project_export_cmd pn) s
            (fun o _ t =>
               forall x rest,
                 EvGetCreatorUsername x (Ok (None :: rest)) ∈ t ->
                 o = Raise SystemExit /\
                 List.filter is_exception_log t
                   = [exception_log (RuntimeError ["Validation error"])] /\
                 (exists username,
                    List.filter is_error_log t
                    = [EvLog ERROR
                         "Validation error: Cannot find project - %s under username %s"
                         [JStr pn; JStr username] None]) /\
                 length (List.filter is_get_creator t) = 1 /\
                 List.filter after_identity t = [])).
  wp_export; intros x rest Hin;
    apply (filter_elem is_get_creator) in Hin; try reflexivity;
    project_in is_get_creator Hin; in_list.
  repeat split; try (eexists; project is_error_log; reflexivity);
    by project is_session.
Qed.
End ExportCommand.

(** ** The import *)

(** The document handed to the creation call is the one read, without the
    marker. *)
Ltac marker_gone :=
  unfold marker in *;
  repeat match goal with
    | H : bool_decide _ = true |- _ => apply bool_decide_eq_true in H
    | H : bool_decide _ = false |- _ => apply bool_decide_eq_false in H
    end;
  try case_bool_decide;
  first
    [ reflexivity
    | symmetry; apply delete_id; by apply eq_None_not_Some ].

Ltac legacy_path :=
  project is_legacy_step;
  first
    [ by constructor
    | apply lr_created; [marker_gone|]
    | apply lr_existing ];
  unfold marker;
  repeat match goal with
    | H : bool_decide _ = _ |- _ => rewrite H
    end;
  first
    [ by constructor
    | by (destruct (bool_decide _); constructor) ].

(** Removing the marker leaves the other keys alone. *)
Lemma strip_marker_lookup (md : gmap string json) (b : bool) (k : string) :
  k <> "default_project_engine_type" ->
  (if b then delete "default_project_engine_type" md else md) !! k = md !! k.
Proof. intros Hk. destruct b; [by apply lookup_delete_ne|done]. Qed.

(** What the creation call gave back, under the assumption [Hframe] on it. *)
Ltac created Hframe :=
  try match goal with
    | H : context [create_project_v2 ?o ?m ?w] |- _ =>
        let E := fresh "E" in
        cbv beta in H;
        pose proof (Hframe o m w) as Hf;
        destruct (create_project_v2 o m w) as [[[?|?] ?] ?] eqn:E;
        simplify_eq; cbn [fst snd] in Hf
    end.

Section ImportCommand.
Context {W Obj Validator : Type} {collab : Collaborators W Obj Validator}.

Lemma import_legacy_run pn (s : state W Obj) :
  legacy_run (outcome_of (project_import_cmd pn) s)
    (List.filter is_legacy_step (trace_of (project_import_cmd pn) s)).
Proof.
  change (wp (project_import_cmd pn) s
            (fun o _ t => legacy_run o (List.filter is_legacy_step t))).
  wp_import; legacy_path.
Qed.

Lemma import_session_events pn (s : state W Obj) :
  import_session (outcome_of (project_import_cmd pn) s)
    (List.filter is_transfer_or_terminate
       (trace_of (project_import_cmd pn) s)).
Proof.
  change (wp (project_import_cmd pn) s
            (fun o _ t =>
               import_session o (List.filter is_transfer_or_terminate t))).
  wp_import; project is_transfer_or_terminate; by constructor.
Qed.

Lemma import_stopped_by_failed_validator pn (s : state W Obj) i vr :
  EvValidate i (Ok vr) ∈ trace_of (project_import_cmd pn) s ->
  is_FAILED (validation_status vr) = true ->
  stopped_by i vr (outcome_of (project_import_cmd pn) s)
    (trace_of (project_import_cmd pn) s).
Proof.
  revert i vr.
  change (wp (project_import_cmd pn) s
            (fun o _ t =>
               forall i vr,
                 EvValidate i (Ok vr) ∈ t ->
                 is_FAILED (validation_status vr) = true ->
                 stopped_by i vr o t)).
  wp_import; validation_path.
Qed.

(** C4: in an import that has read the metadata document [md], the
    document handed to the creation call is [md] without the marker; a
    patch call carries the legacy-engine patch, happens only when [md] has
    the marker and only after the transfer and the terminate call have
    both returned; with the marker such an import that completes has
    applied the patch, and the patch is the step that follows the
    completed transfer and terminate; without the marker no patch call is
    made. *)
Theorem legacy_engine_patch_follows_transfer
    pn (s : state W Obj) path md :
  let o := outcome_of (project_import_cmd pn) s in
  let t := trace_of (project_import_cmd pn) s in
  EvReadJson path (Ok md) ∈ t ->
  (forall x md' r, EvCreateProject x md' r ∈ t ->
     md' = delete marker md /\ md' !! marker = None) /\
  (forall pre x patch r post,
     t = pre ++ EvConvertToEngine x patch r :: post ->
     is_Some (md !! marker) /\ x = var_pimport /\ patch = legacy_patch /\
     [EvTransfer var_pimport (Ok tt); EvTerminate var_pimport (Ok tt)]
       `sublist_of` pre) /\
  (is_Some (md !! marker) -> o = Ret tt ->
     EvConvertToEngine var_pimport legacy_patch (Ok tt) ∈ t) /\
  (is_Some (md !! marker) ->
   forall k1 k2,
     List.filter is_legacy_step t
     = k1 ++ EvTransfer var_pimport (Ok tt)
          :: EvTerminate var_pimport (Ok tt) :: k2 ->
     exists r k3, k2 = EvConvertToEngine var_pimport legacy_patch r :: k3) /\
  (md !! marker = None ->
   forall x patch r, EvConvertToEngine x patch r ∉ t).
Proof.
  intros o t Hread.
  pose proof (import_legacy_run pn s) as Hs. fold o t in Hs.
  apply (filter_elem is_legacy_step) in Hread; [|done].
  assert (Hcases :
    exists r k,
      patch_run (bool_decide (is_Some (md !! marker))) o k /\
      (List.filter is_legacy_step t = EvReadJson path (Ok md) :: k \/
       List.filter is_legacy_step t
       = EvReadJson path (Ok md)
           :: EvCreateProject var_p (delete marker md) r :: k)).
  { inversion Hs as [o' Ho Ho' Hk|o' p' e Ho Ho' Hk
                    |o' p' md0 k Hp Ho' Hk|o' p' md0 md' r k Hmd Hp Ho' Hk];
      rewrite <- Hk in Hread.
    - by in_list.
    - by in_list.
    - exists (Ok None), k. apply elem_of_cons in Hread as [Hread|Hread].
      + simplify_eq. auto.
      + exfalso. inversion Hp; subst; by in_list.
    - exists r, k. apply elem_of_cons in Hread as [Hread|Hread].
      + simplify_eq. auto.
      + exfalso. inversion Hp; subst; by in_list. }
  clear Hs Hread. destruct Hcases as (rc & k & Hp & Hk).
  split; [|split; [|split; [|split]]].
  - intros x md' r Hin.
    apply (filter_elem is_legacy_step) in Hin; [|done].
    destruct Hk as [Hk|Hk]; rewrite Hk in Hin;
      inversion Hp; subst; in_list; by rewrite lookup_delete_eq.
  - intros pre x patch r post Ht.
    rewrite Ht in Hk. rewrite filter_split in Hk by done.
    assert (List.filter is_legacy_step pre `sublist_of` pre) as Hsub
      by apply filter_sublist.
    generalize dependent (List.filter is_legacy_step pre). intros fp Hk Hsub.
    destruct Hk as [Hk|Hk]; inversion Hp; subst; peel Hk;
      (split; [by eapply bool_decide_eq_true_1|]);
      (split; [done|]); (split; [done|]);
      (etrans; [|exact Hsub]); sublist_search.
  - intros Hm Ho. eapply proj1, (elem_filter is_legacy_step).
    apply (bool_decide_eq_true_2 _) in Hm.
    destruct Hk as [Hk|Hk]; rewrite Hk; inversion Hp; subst;
      try congruence;
      repeat first [apply list_elem_of_here | apply list_elem_of_further].
  - intros Hm k1 k2 Hk12. rewrite Hk12 in Hk.
    apply (bool_decide_eq_true_2 _) in Hm.
    destruct Hk as [Hk|Hk]; inversion Hp; subst; peel Hk;
      try congruence; eauto.
  - intros Hm x patch r Hin.
    apply (filter_elem is_legacy_step) in Hin; [|done].
    assert (bool_decide (is_Some (md !! marker)) = false) as Hb.
    { apply bool_decide_eq_false. rewrite Hm. by intros [? ?]. }
    destruct Hk as [Hk|Hk]; rewrite Hk in Hin;
      inversion Hp; subst; try congruence; by in_list.
Qed.
(** X24: when the lookup finds the project, the import does not call the
    creation, logs the one warning, with the name, and goes on: a patch it
    sends is the legacy-engine patch, once the importer is built the files
    are transferred, and the metadata import receives the id the lookup
    gave. *)
Theorem reimport_skips_creation pn (s : state W Obj) x name id :
  let t := trace_of (project_import_cmd pn) s in
  EvCheckProjectExist x name (Ok (Some id)) ∈ t ->
  List.filter is_create t = [] /\
  List.filter is_warning t = [EvLog WARNING import_warning [name] None] /\
  (forall y patch r,
     EvConvertToEngine y patch r ∈ t -> patch = legacy_patch) /\
  (forall a, EvNewImporter var_pimport a (Ok tt) ∈ t ->
     exists r, EvTransfer var_pimport r ∈ t) /\
  (forall y project_id r,
     EvImportMetadata y project_id r ∈ t -> project_id = Some id).
Proof.
  intros t. subst t. revert x name id.
  change (wp (project_import_cmd pn) s
            (fun _ _ t =>
               forall x name id,
                 EvCheckProjectExist x name (Ok (Some id)) ∈ t ->
                 List.filter is_create t = [] /\
                 List.filter is_warning t
                   = [EvLog WARNING import_warning [name] None] /\
                 (forall y patch r,
                    EvConvertToEngine y patch r ∈ t ->
                    patch = legacy_patch) /\
                 (forall a, EvNewImporter var_pimport a (Ok tt) ∈ t ->
                    exists r, EvTransfer var_pimport r ∈ t) /\
                 (forall y project_id r,
                    EvImportMetadata y project_id r ∈ t ->
                    project_id = Some id))).
  wp_import; intros x name id Hin; use_event is_check_project Hin.
  all: split; [by project is_create|].
  all: split;
    [ by project is_warning |].
  all: split; [intros y patch r Hc; by use_event is_convert Hc|].
  all: split;
    [ intros a' Ha; use_event is_new_importer Ha;
      eexists; find_event is_transfer
    | intros y pid r Hm; by use_event is_import_metadata Hm ].
Qed.

(** C9: the importer that transfers the files is built with the team name of
    the metadata document as user name, and with the configured user name
    (the one [p] was built with) when the document has no ["team_name"];
    every transfer is made by that importer.  The creation call receives
    the dictionary itself and is assumed to leave its ["team_name"] entry as
    it is. *)
Theorem import_transfers_as_team pn (s : state W Obj) path md a0 r0 a r :
  (forall o md' w,
     (create_project_v2 o md' w).1.2 !! "team_name" = md' !! "team_name") ->
  let t := trace_of (project_import_cmd pn) s in
  EvReadJson path (Ok md) ∈ t ->
  EvNewImporter var_p a0 r0 ∈ t ->
  EvNewImporter var_pimport a r ∈ t ->
  im_username a = default (im_username a0) (md !! "team_name") /\
  (forall x r', EvTransfer x r' ∈ t -> x = var_pimport).
Proof.
  intros Hframe t. subst t. revert path md a0 r0 a r.
  change (wp (project_import_cmd pn) s
            (fun _ _ t =>
               forall path md a0 r0 a r,
                 EvReadJson path (Ok md) ∈ t ->
                 EvNewImporter var_p a0 r0 ∈ t ->
                 EvNewImporter var_pimport a r ∈ t ->
                 im_username a = default (im_username a0) (md !! "team_name") /\
                 (forall x r', EvTransfer x r' ∈ t -> x = var_pimport))).
  wp_import; intros path md args0 res0 args res Hread Hp Hpi;
    use_event is_new_importer Hpi; use_event is_new_importer Hp;
    use_event is_read_json Hread.
  all: created Hframe.
  all: split; [|intros xt rt Ht; by use_event is_transfer Ht].
  all: cbn [im_username].
  all: rewrite ?Hf, ?strip_marker_lookup, ?lookup_delete_ne by done.
  all: by destruct (_ !! "team_name").
Qed.

(** C10: the existence check receives the ["name"] entry of the metadata
    document that was read, and the creation call a document with that same
    entry; a document without ["name"] makes the import leave through the
    handler with the [KeyError] logged, before any lookup, creation,
    importer, transfer or metadata import. *)
Theorem import_keyed_on_metadata_name pn (s : state W Obj) path md :
  let o := outcome_of (project_import_cmd pn) s in
  let t := trace_of (project_import_cmd pn) s in
  EvReadJson path (Ok md) ∈ t ->
  (forall x name r,
     EvCheckProjectExist x name r ∈ t -> md !! "name" = Some name) /\
  (forall x md' r,
     EvCreateProject x md' r ∈ t -> md' !! "name" = md !! "name") /\
  (md !! "name" = None ->
   o = Raise SystemExit /\
   List.filter is_exception_log t = [exception_log (KeyError "name")] /\
   List.filter after_metadata t = []).
Proof.
  intros o t. subst o t. revert path md.
  change (wp (project_import_cmd pn) s
            (fun o _ t =>
               forall path md,
                 EvReadJson path (Ok md) ∈ t ->
                 (forall x name r,
                    EvCheckProjectExist x name r ∈ t ->
                    md !! "name" = Some name) /\
                 (forall x md' r,
                    EvCreateProject x md' r ∈ t ->
                    md' !! "name" = md !! "name") /\
                 (md !! "name" = None ->
                  o = Raise SystemExit /\
                  List.filter is_exception_log t
                    = [exception_log (KeyError "name")] /\
                  List.filter after_metadata t = []))).
  wp_import; intros path md Hread; use_event is_read_json Hread.
  all: repeat match goal with
         | H : _ !! "name" = _ |- _ =>
             rewrite ?strip_marker_lookup, ?lookup_delete_ne in H by done
         end.
  all: split; [intros xc name rc Hc; by use_event is_check_project Hc|].
  all: split;
    [ intros xc md' rc Hc; use_event is_create Hc;
      by rewrite ?strip_marker_lookup, ?lookup_delete_ne by done |].
  all: intros Hnone; try congruence.
  all: split; [done|split; [by project is_exception_log|by project after_metadata]].
Qed.
End ImportCommand.

(** ** The runtime catalog *)

Section Catalog.
Context {W Obj Validator : Type} {collab : Collaborators W Obj Validator}.

Lemma wp_dump path doc (s : state W Obj) Q :
  (forall written err w,
     json_dump doc (world s) = ((written, err), w) ->
     Q (match err with None => Ret tt | Some e => Raise e end)
       (mkState w (local s) (<[path := written]> (files s)))
       [EvDump doc written err]) ->
  wp (dump path doc) s Q.
Proof.
  unfold wp, outcome_of, state_of, trace_of, dump. intros H.
  destruct (json_dump doc (world s)) as [[written err] w] eqn:E. simpl. auto.
Qed.

Lemma nonempty_token (tok : string) :
  tok <> EmptyString -> bool_decide (0 < String.length tok)%nat = true.
Proof.
  intros H. apply bool_decide_eq_true. destruct tok; [done|simpl; lia].
Qed.

(** The loop, against a listing that serves [rs], with fuel for all of
    them. *)
Lemma wp_fetch_more fuel (p : Obj) tok runtimes rs (s : state W Obj) Q :
  serves_more tok rs ->
  length rs <= fuel ->
  (forall w,
     Q (Ret (runtimes ++ concat (runtimes_of <$> rs)))
       (mkState w (local s) (files s)) (fetches tok rs)) ->
  wp (fetch_more fuel p tok runtimes) s Q.
Proof.
  revert fuel tok runtimes s Q.
  induction rs as [|r rest IH]; intros fuel tok runtimes s Q Hs Hfuel HQ.
  - simpl in Hs. subst tok.
    destruct fuel; simpl; (eapply wp_val; [reflexivity|]);
      specialize (HQ (world s)); simpl in HQ; rewrite app_nil_r in HQ;
      by destruct s.
  - destruct fuel as [|fuel]; [simpl in Hfuel; lia|].
    assert (tok <> EmptyString /\ answers tok r) as [Htok Hans].
    { destruct r; simpl in Hs; tauto. }
    simpl. rewrite (nonempty_token _ Htok).
    apply wp_bind, wp_call. intros r' w Hcall.
    pose proof (Hans p (world s)) as Hr. rewrite Hcall in Hr. simpl in Hr.
    subst r'. unfold of_result, then_.
    destruct r as [pg|].
    + destruct Hs as (_ & _ & Hs).
      apply IH; [done|simpl in Hfuel; lia|].
      intros w'. simpl. specialize (HQ w'). simpl in HQ.
      by rewrite <- app_assoc.
    + destruct Hs as (_ & _ & ->).
      eapply wp_val; [reflexivity|]. simpl.
      specialize (HQ w). simpl in HQ. by rewrite app_nil_r in HQ.
Qed.

Lemma filter_fetches tok rs :
  List.filter is_catalog_step (fetches tok rs) = fetches tok rs.
Proof.
  revert tok. induction rs as [|r rest IH]; intros tok; simpl; [done|].
  by rewrite IH.
Qed.

Lemma gathered_none (l : list json) :
  bool_decide (0 < length l)%nat = false -> l = [].
Proof.
  intros H. apply bool_decide_eq_false in H. destruct l; [done|simpl in H; lia].
Qed.

Lemma gathered_some (l : list json) :
  bool_decide (0 < length l)%nat = true -> l <> [].
Proof.
  intros H. apply bool_decide_eq_true in H. destruct l; [simpl in H; lia|done].
Qed.
End Catalog.

(** ** Both commands *)

Section Session.
Context {W Obj Validator : Type} {collab : Collaborators W Obj Validator}.

(** C1, as the code has it: terminate is invoked on the object that
    transfers and on no other.  A run that started no transfer invokes it
    zero times.  A run whose transfer raised invokes it once, and so does
    an export whose metadata dump raised.  An import whose transfer
    returned invokes it once if the import completes and twice if anything
    fails afterwards. *)
Theorem terminate_calls_on_each_path pn (s : state W Obj) :
  (let t := trace_of (project_export_cmd pn) s in
   let closes := List.filter is_terminate t in
   (forall x r, EvTerminate x r ∈ t -> x = var_pexport) /\
   (List.filter is_transfer t = [] -> closes = []) /\
   (forall x e, EvTransfer x (Err e) ∈ t -> length closes = 1) /\
   (forall x e, EvDumpMetadata x (Err e) ∈ t -> length closes = 1)) /\
  (let o := outcome_of (project_import_cmd pn) s in
   let t := trace_of (project_import_cmd pn) s in
   let closes := List.filter is_terminate t in
   (forall x r, EvTerminate x r ∈ t -> x = var_pimport) /\
   (List.filter is_transfer t = [] -> closes = []) /\
   (forall x e, EvTransfer x (Err e) ∈ t -> length closes = 1) /\
   (forall x, EvTransfer x (Ok tt) ∈ t -> o = Ret tt -> length closes = 1) /\
   (forall x, EvTransfer x (Ok tt) ∈ t -> o <> Ret tt ->
      length closes = 2)).
Proof.
  split.
  - intros t closes. subst closes.
    pose proof (export_session_events pn s) as Hs. fold t in Hs.
    rewrite <- (filter_sub is_terminate is_session t) by (by intros []).
    rewrite <- (filter_sub is_transfer is_session t) by (by intros []).
    repeat split.
    + intros x r Hin. apply (filter_elem is_session) in Hin; [|done].
      shape_inv Hs; by in_list.
    + shape_inv Hs; done.
    + intros x e Hin. apply (filter_elem is_session) in Hin; [|done].
      shape_inv Hs; by in_list.
    + intros x e Hin. apply (filter_elem is_session) in Hin; [|done].
      shape_inv Hs; by in_list.
  - intros o t closes. subst closes.
    pose proof (import_session_events pn s) as Hs. fold o t in Hs.
    rewrite <- (filter_sub is_terminate is_transfer_or_terminate t)
      by (by intros []).
    rewrite <- (filter_sub is_transfer is_transfer_or_terminate t)
      by (by intros []).
    repeat split.
    + intros x r Hin.
      apply (filter_elem is_transfer_or_terminate) in Hin; [|done].
      shape_inv Hs; by in_list.
    + shape_inv Hs; done.
    + intros x e Hin.
      apply (filter_elem is_transfer_or_terminate) in Hin; [|done].
      shape_inv Hs; by in_list.
    + intros x Hin Hret.
      apply (filter_elem is_transfer_or_terminate) in Hin; [|done].
      shape_inv Hs; try done; by in_list.
    + intros x Hin Hret.
      apply (filter_elem is_transfer_or_terminate) in Hin; [|done].
      shape_inv Hs; try done; by in_list.
Qed.
End Session.

Section Validation.
Context {W Obj Validator : Type} {collab : Collaborators W Obj Validator}.

(** C3: when validator [i] of an export or of an import reports FAILED, no
    validator after it is evaluated, no transfer, dump or terminate call is
    made, and the command leaves through the handler, where the exception
    logged carries the message of that validator. *)
Theorem failed_validator_stops_the_operation pn (s : state W Obj) i vr :
  validation_status vr = FAILED ->
  (EvValidate i (Ok vr) ∈ trace_of (project_export_cmd pn) s ->
   stopped_by i vr (outcome_of (project_export_cmd pn) s)
     (trace_of (project_export_cmd pn) s)) /\
  (EvValidate i (Ok vr) ∈ trace_of (project_import_cmd pn) s ->
   stopped_by i vr (outcome_of (project_import_cmd pn) s)
     (trace_of (project_import_cmd pn) s)).
Proof.
  intros Hf. assert (is_FAILED (validation_status vr) = true) as Hb
    by by rewrite Hf.
  split; intros Hin.
  - by apply export_stopped_by_failed_validator.
  - by apply import_stopped_by_failed_validator.
Qed.
End Validation.

(** ** The configuration file *)

Ltac wp_config_step :=
  lazymatch goal with
  | |- if is_NoOptionError ?e then _ else _ =>
      destruct e; cbn [is_NoOptionError]
  | _ => wp_step
  end.

Ltac wp_config :=
  unfold _read_config_file; cbn [read_keys]; repeat wp_config_step.

Section Configuration.
Context {W Obj Validator : Type} {collab : Collaborators W Obj Validator}.

Lemma dom_setdefault (key value : string) (d : gmap string string) :
  dom (setdefault key value d) = {[ key ]} ∪ dom d.
Proof.
  unfold setdefault. destruct (d !! key) eqn:E.
  - apply elem_of_dom_2 in E. apply set_eq. intros k.
    rewrite elem_of_union, elem_of_singleton.
    split; [by right | by intros [->|?]].
  - by rewrite dom_insert_L.
Qed.

Lemma lookup_setdefault (key value : string) (d : gmap string string) k :
  k = key \/ is_Some (d !! k) -> is_Some (setdefault key value d !! k).
Proof.
  unfold setdefault. destruct (d !! key) eqn:E.
  - intros [->|?]; [by rewrite E|done].
  - intros [->|?]; [by rewrite lookup_insert_eq|].
    rewrite lookup_insert_is_Some. destruct (decide (key = k)); auto.
Qed.

Lemma reads_setdefault opts key value cfg :
  reads opts cfg -> opts key = Ok value ->
  reads opts (setdefault key value cfg).
Proof.
  unfold setdefault. intros Hcfg Hkey k v.
  destruct (cfg !! key) eqn:E; [apply Hcfg|].
  destruct (decide (key = k)) as [->|Hne].
  - rewrite lookup_insert_eq. congruence.
  - rewrite lookup_insert_ne by done. apply Hcfg.
Qed.

(** X1: the dictionary that [_read_config_file] returns has exactly the
    five keys: the four of the loop and the one of the CA path; a read that
    returns has printed nothing. *)
Theorem config_has_the_five_keys fp pn (s : state W Obj) cfg :
  outcome_of (_read_config_file fp pn) s = Ret cfg ->
  dom cfg = config_keys /\
  trace_of (_read_config_file fp pn) s = [].
Proof.
  revert cfg.
  change (wp (_read_config_file fp pn) s
            (fun o _ t => forall cfg, o = Ret cfg ->
               dom cfg = config_keys /\ t = [])).
  wp_config; intros cfg Hret; try discriminate Hret.
  injection Hret as <-. split; [|done].
  rewrite dom_insert_L, !dom_setdefault, dom_empty_L.
  unfold config_keys. apply set_eq. intros k.
  rewrite !elem_of_union, !elem_of_singleton, elem_of_empty. tauto.
Qed.

(** X2: [_read_config_file] prints at most one line, and only when it
    fails: that the file cannot be found, when it does not exist, raising
    the [RuntimeError]; or that a key is missing, for one of the four keys
    of the loop, raising a [NoOptionError]. *)
Theorem read_config_prints_its_failure fp pn (s : state W Obj) :
  let o := outcome_of (_read_config_file fp pn) s in
  let t := trace_of (_read_config_file fp pn) s in
  t = [] \/
  (t = [missing_file_message fp] /\ o = Raise config_file_error /\
   os_path_exists fp (world s) = false) \/
  (exists key option section,
     key ∈ required_keys /\ t = [missing_key_message key] /\
     o = Raise (NoOptionError option section)).
Proof.
  intros o t. subst o t.
  change (wp (_read_config_file fp pn) s
            (fun o _ t =>
               t = [] \/
               (t = [missing_file_message fp] /\ o = Raise config_file_error /\
                os_path_exists fp (world s) = false) \/
               (exists key option section,
                  key ∈ required_keys /\ t = [missing_key_message key] /\
                  o = Raise (NoOptionError option section)))).
  unfold _read_config_file. wp_step. wp_step. wp_step.
  destruct (os_path_exists fp (world s)) eqn:Hex.
  - cbn [read_keys]; repeat wp_config_step.
    all: try (by left).
    all: right; right; do 3 eexists; (split; [|split; reflexivity]).
    all: unfold required_keys;
      repeat first [apply list_elem_of_here | apply list_elem_of_further].
  - repeat wp_step. right; left. done.
Qed.

Lemma wp_config_get pn key opts (s : state W Obj) Q :
  parsed pn opts ->
  (forall w, Q (of_result (opts key)) (mkState w (local s) (files s)) []) ->
  wp (call_quiet (config_get pn key)) s Q.
Proof.
  intros Hopts HQ. apply wp_call_quiet. intros r w Hcall.
  pose proof (Hopts key (world s)) as Hk. rewrite Hcall in Hk.
  simpl in Hk. subst r. apply HQ.
Qed.

(** The loop over the keys, up to the first key that [config.get] fails
    on. *)
Lemma wp_read_keys_failure pn opts pre key post e cfg (s : state W Obj) :
  parsed pn opts ->
  (forall k, k ∈ pre -> exists v, opts k = Ok v) ->
  opts key = Err e ->
  wp (read_keys pn (pre ++ key :: post) cfg) s
    (fun o s' t =>
       o = Raise e /\
       t = (if is_NoOptionError e then [missing_key_message key] else []) /\
       local s' = local s /\ files s' = files s).
Proof.
  intros Hopts Hpre Hkey. revert cfg s.
  induction pre as [|k pre IH]; intros cfg s; cbn [app read_keys].
  - apply wp_bind, wp_try, wp_bind.
    apply (wp_config_get _ _ opts); [done|intros w].
    rewrite Hkey. cbn [of_result then_ caught].
    destruct e; cbn [is_NoOptionError]; repeat wp_step; done.
  - destruct (Hpre k) as [v Hv]; [constructor|].
    apply wp_bind, wp_try, wp_bind.
    apply (wp_config_get _ _ opts); [done|intros w].
    rewrite Hv. cbn [of_result then_]. wp_step. cbn [caught then_].
    eapply wp_mono; [apply IH|].
    + intros k' Hk'. apply Hpre. by constructor.
    + cbn [local files]. intros o s' t (-> & -> & ? & ?). done.
Qed.

(** The loop over the keys when [config.get] has them all. *)
Lemma wp_read_keys_success pn opts keys cfg (s : state W Obj) :
  parsed pn opts ->
  (forall k, k ∈ keys -> exists v, opts k = Ok v) ->
  reads opts cfg ->
  wp (read_keys pn keys cfg) s
    (fun o s' t =>
       (exists cfg', o = Ret cfg' /\ reads opts cfg' /\
          forall k, k ∈ keys \/ is_Some (cfg !! k) -> is_Some (cfg' !! k)) /\
       t = [] /\ local s' = local s /\ files s' = files s).
Proof.
  intros Hopts. revert cfg s.
  induction keys as [|k keys IH]; intros cfg s Hkeys Hcfg; cbn [read_keys].
  - wp_step. split; [|done]. exists cfg. split; [done|]. split; [done|].
    intros k [Hk|Hk]; [by apply elem_of_nil in Hk|done].
  - destruct (Hkeys k) as [v Hv]; [constructor|].
    apply wp_bind, wp_try, wp_bind.
    apply (wp_config_get _ _ opts); [done|intros w].
    rewrite Hv. cbn [of_result then_]. wp_step. cbn [caught then_].
    eapply wp_mono; [apply IH|].
    + intros k' Hk'. apply Hkeys. by constructor.
    + by apply reads_setdefault.
    + cbn [local files].
      intros o s' t ((cfg' & -> & Hr & Hdom) & -> & ? & ?).
      split; [|done]. exists cfg'. split; [done|]. split; [done|].
      intros k' [Hk'|Hk']; apply Hdom.
      * apply elem_of_cons in Hk' as [->|Hk']; [|by left].
        right. apply lookup_setdefault. by left.
      * right. apply lookup_setdefault. by right.
Qed.

(** [config.get(section, key, fallback=...)] against such a parser. *)
Lemma wp_config_get_fallback pn key fallback opts (s : state W Obj) Q :
  parsed pn opts ->
  (forall w,
     Q (match opts key with
        | Ok v => Ret v
        | Err e => if is_missing e then Ret fallback else Raise e
        end)
       (mkState w (local s) (files s)) []) ->
  wp (call_quiet (config_get_fallback pn key fallback)) s Q.
Proof.
  intros Hopts HQ. apply wp_call_quiet. intros r w Hcall.
  unfold config_get_fallback in Hcall.
  pose proof (Hopts key (world s)) as Hk. specialize (HQ w).
  destruct (config_get pn key (world s)) as [r0 w0]. simpl in Hk. subst r0.
  destruct (opts key) as [v|[]]; simplify_eq; exact HQ.
Qed.

(** A readable file whose section has the required options. *)
Lemma wp_read_config_file fp pn opts (s : state W Obj) :
  parsed pn opts ->
  os_path_exists fp (world s) = true ->
  (config_read fp (world s)).1 = Ok tt ->
  (forall k, k ∈ required_keys -> exists v, opts k = Ok v) ->
  wp (_read_config_file fp pn) s
    (fun o s' t =>
       match opts CA_PATH_KEY with
       | Ok ca =>
           exists cfg, o = Ret (<[CA_PATH_KEY := ca]> cfg) /\
             reads opts cfg /\
             forall k, k ∈ required_keys -> is_Some (cfg !! k)
       | Err e =>
           if is_missing e
           then exists cfg, o = Ret (<[CA_PATH_KEY := EmptyString]> cfg) /\
                  reads opts cfg /\
                  forall k, k ∈ required_keys -> is_Some (cfg !! k)
           else o = Raise e
       end /\ t = []).
Proof.
  intros Hopts Hex Hread Hkeys.
  unfold _read_config_file. wp_step. wp_step. wp_step. rewrite Hex.
  apply wp_bind, wp_call_quiet. intros r w Hcall.
  rewrite Hcall in Hread. simpl in Hread. subst r. cbn [of_result then_].
  apply wp_bind.
  eapply wp_mono;
    [apply (wp_read_keys_success pn opts
              [USERNAME_KEY; URL_KEY; API_V1_KEY; OUTPUT_DIR_KEY] ∅);
     [done|exact Hkeys|by intros k v Hk]|].
  intros o s' t ((cfg & -> & Hr & Hdom) & -> & _ & _). cbn [then_].
  apply wp_bind, (wp_config_get_fallback _ _ _ opts); [done|intros w'].
  destruct (opts CA_PATH_KEY) as [ca|e]; [|destruct (is_missing e)];
    cbn [then_]; repeat wp_step; (split; [|done]); try done.
  all: exists cfg; split; [done|]; split; [done|]; intros k Hk; apply Hdom; by left.
Qed.

(** X3: when the file exists and can be read, and the parser has the four
    required options and the CA path, [_read_config_file] returns a
    dictionary that maps each of the five keys to the value that
    [config.get] gives for it. *)
Theorem read_config_returns_the_options fp pn (s : state W Obj) opts :
  parsed pn opts ->
  os_path_exists fp (world s) = true ->
  (config_read fp (world s)).1 = Ok tt ->
  (forall k, k ∈ required_keys ++ [CA_PATH_KEY] -> exists v, opts k = Ok v) ->
  exists cfg,
    outcome_of (_read_config_file fp pn) s = Ret cfg /\
    forall k v, k ∈ required_keys ++ [CA_PATH_KEY] -> opts k = Ok v ->
      cfg !! k = Some v.
Proof.
  intros Hopts Hex Hread Hkeys.
  destruct (Hkeys CA_PATH_KEY) as [ca Hca].
  { apply elem_of_app. right. constructor. }
  destruct (wp_read_config_file fp pn opts s Hopts Hex Hread) as [H _].
  { intros k Hk. apply Hkeys, elem_of_app. by left. }
  rewrite Hca in H. destruct H as (cfg & Ho & Hr & Hdom).
  eexists. split; [exact Ho|]. intros k v Hk Hv.
  destruct (decide (k = CA_PATH_KEY)) as [->|Hne].
  - rewrite lookup_insert_eq. congruence.
  - rewrite lookup_insert_ne by done.
    apply elem_of_app in Hk as [Hk|Hk].
    + destruct (Hdom k Hk) as [x Hx]. rewrite Hx.
      apply Hr in Hx. congruence.
    + apply list_elem_of_singleton in Hk. done.
Qed.

(** X4: the CA path is optional: when the parser has the four required
    options and [config.get] has no such option (or section) for the CA
    path, [_read_config_file] still returns, with the empty string under
    that key. *)
Theorem ca_path_is_optional fp pn (s : state W Obj) opts e :
  parsed pn opts ->
  os_path_exists fp (world s) = true ->
  (config_read fp (world s)).1 = Ok tt ->
  (forall k, k ∈ required_keys -> exists v, opts k = Ok v) ->
  opts CA_PATH_KEY = Err e ->
  is_missing e = true ->
  exists cfg,
    outcome_of (_read_config_file fp pn) s = Ret cfg /\
    cfg !! CA_PATH_KEY = Some EmptyString.
Proof.
  intros Hopts Hex Hread Hkeys Hca He.
  destruct (wp_read_config_file fp pn opts s Hopts Hex Hread Hkeys) as [H _].
  rewrite Hca, He in H. destruct H as (cfg & Ho & _).
  eexists. split; [exact Ho|]. by rewrite lookup_insert_eq.
Qed.

(** X5: the four keys are read in order, and the first one that
    [config.get] fails on ends the read: [_read_config_file] raises what
    [config.get] raised, as it is; it prints that the key is missing when
    that is a [NoOptionError], and nothing otherwise. *)
Theorem failing_option_is_raised fp pn (s : state W Obj) opts pre key post e :
  parsed pn opts ->
  os_path_exists fp (world s) = true ->
  (config_read fp (world s)).1 = Ok tt ->
  required_keys = pre ++ key :: post ->
  (forall k, k ∈ pre -> exists v, opts k = Ok v) ->
  opts key = Err e ->
  outcome_of (_read_config_file fp pn) s = Raise e /\
  trace_of (_read_config_file fp pn) s
  = if is_NoOptionError e then [missing_key_message key] else [].
Proof.
  intros Hopts Hex Hread Hsplit Hpre Hkey.
  change (wp (_read_config_file fp pn) s
            (fun o _ t =>
               o = Raise e /\
               t = if is_NoOptionError e then [missing_key_message key]
                   else [])).
  unfold _read_config_file. wp_step. wp_step. wp_step. rewrite Hex.
  apply wp_bind, wp_call_quiet. intros r w Hcall.
  rewrite Hcall in Hread. simpl in Hread. subst r. cbn [of_result then_].
  apply wp_bind.
  change [USERNAME_KEY; URL_KEY; API_V1_KEY; OUTPUT_DIR_KEY]
    with required_keys.
  rewrite Hsplit.
  eapply wp_mono; [by apply (wp_read_keys_failure pn opts pre key post e)|].
  intros o s' t (-> & -> & _). cbn [then_]. done.
Qed.

(** X6: the commands read the configuration before their [try]: when
    [_read_config_file] raises, the command raises the same and has done
    nothing else: its events are those of the read. *)
Theorem config_failure_is_not_handled pn fuel (s : state W Obj) e :
  let s0 := mkState (world s) None (files s) in
  (outcome_of (_read_config_file (export_ini s) pn) s0 = Raise e ->
   outcome_of (project_export_cmd pn) s = Raise e /\
   trace_of (project_export_cmd pn) s
   = trace_of (_read_config_file (export_ini s) pn) s0) /\
  (outcome_of (_read_config_file (import_ini s) pn) s0 = Raise e ->
   outcome_of (project_import_cmd pn) s = Raise e /\
   trace_of (project_import_cmd pn) s
   = trace_of (_read_config_file (import_ini s) pn) s0) /\
  (outcome_of (_read_config_file (import_ini s) "DEFAULT") s = Raise e ->
   outcome_of (populate_engine_runtimes_mapping fuel) s = Raise e /\
   trace_of (populate_engine_runtimes_mapping fuel) s
   = trace_of (_read_config_file (import_ini s) "DEFAULT") s).
Proof.
  intros s0. subst s0. unfold export_ini, import_ini.
  split; [|split].
  - unfold project_export_cmd, outcome_of, trace_of, mbind, M_bind,
      set_local, ask. cbn [world local files fst snd].
    destruct (_read_config_file _ pn _) as [[o s1] t1]. cbn [fst snd].
    by intros ->.
  - unfold project_import_cmd, outcome_of, trace_of, mbind, M_bind,
      set_local, ask. cbn [world local files fst snd].
    destruct (_read_config_file _ pn _) as [[o s1] t1]. cbn [fst snd].
    by intros ->.
  - unfold populate_engine_runtimes_mapping, outcome_of, trace_of, mbind,
      M_bind, ask. cbn [world local files fst snd].
    destruct (_read_config_file _ "DEFAULT" _) as [[o s1] t1]. cbn [fst snd].
    by intros ->.
Qed.
End Configuration.

(** ** The pagination, whatever the listing answers *)

Section Pagination.
Context {W Obj Validator : Type} {collab : Collaborators W Obj Validator}.

Lemma empty_token (tok : string) :
  bool_decide (0 < String.length tok)%nat = false -> tok = EmptyString.
Proof.
  intros H. apply bool_decide_eq_false in H. destruct tok; [done|simpl in H; lia].
Qed.

Lemma token_not_empty (tok : string) :
  bool_decide (0 < String.length tok)%nat = true -> tok <> EmptyString.
Proof. intros H ->. done. Qed.

(** The loop leaves the local variable and the files alone, and its events
    are those of [paginated]. *)
Lemma wp_fetch_any fuel (p : Obj) tok runtimes (s : state W Obj) Q :
  (forall o w t, paginated tok runtimes o t ->
     Q o (mkState w (local s) (files s)) t) ->
  wp (fetch_more fuel p tok runtimes) s Q.
Proof.
  revert tok runtimes s Q.
  induction fuel as [|fuel IH]; intros tok runtimes s Q HQ; cbn [fetch_more];
    destruct (bool_decide (0 < String.length tok)%nat) eqn:Htok.
  - apply token_not_empty in Htok. eapply wp_val; [reflexivity|].
    destruct s. apply HQ. by constructor.
  - apply empty_token in Htok as ->. eapply wp_val; [reflexivity|].
    destruct s. apply HQ. constructor.
  - apply token_not_empty in Htok.
    apply wp_bind, wp_call. intros [[pg|]|e] w _; cbn [of_result then_].
    + apply IH. intros o w' t Hp. cbn [local files app].
      apply HQ. by constructor.
    + eapply wp_val; [reflexivity|]. cbn [app]. apply HQ. by constructor.
    + apply HQ. by constructor.
  - apply empty_token in Htok as ->. eapply wp_val; [reflexivity|].
    destruct s. apply HQ. constructor.
Qed.

Lemma paginated_filter (f : event -> bool) tok runtimes o t :
  paginated tok runtimes o t ->
  (forall x tk r, f (EvGetAllRuntimes x tk r) = false) ->
  List.filter f t = [].
Proof.
  intros H Hf. induction H; simpl; rewrite ?Hf; auto.
Qed.

Lemma paginated_fetches tok runtimes o t :
  paginated tok runtimes o t -> List.filter is_fetch t = t.
Proof. intros H. induction H; simpl; by rewrite ?IHpaginated. Qed.

Lemma paginated_gathered tok runtimes runtimes' t :
  paginated tok runtimes (Ret runtimes') t ->
  runtimes' = runtimes ++ gathered t.
Proof.
  intros H. remember (Ret runtimes') as o eqn:Ho.
  induction H; try discriminate Ho.
  - injection Ho as ->. by rewrite app_nil_r.
  - rewrite (IHpaginated Ho). unfold gathered. cbn [map concat].
    by rewrite <- app_assoc.
  - injection Ho as ->. by rewrite app_nil_r.
Qed.

Lemma paginated_empty_token runtimes o t :
  paginated EmptyString runtimes o t -> t = [].
Proof. intros H. by inversion H. Qed.

Lemma paginated_chain tok runtimes o t :
  paginated tok runtimes o t -> token_chain tok t.
Proof.
  intros H. induction H as [| tok runtimes pg o t Htok Hp IH | | |];
    try constructor.
  destruct t as [|e rest]; [constructor|].
  constructor; [|done].
  intros Hnil. rewrite Hnil in Hp.
  by apply paginated_empty_token in Hp.
Qed.

Lemma paginated_tokens tok runtimes o t x tk r :
  paginated tok runtimes o t -> EvGetAllRuntimes x tk r ∈ t ->
  tk <> EmptyString.
Proof.
  intros H Hin. induction H; in_list; auto.
Qed.

Lemma paginated_raised tok runtimes o t x tk e :
  paginated tok runtimes o t -> EvGetAllRuntimes x tk (Err e) ∈ t ->
  o = Raise e.
Proof.
  intros H Hin. induction H; in_list; auto.
Qed.

(** The first fetch and the fetches of the loop after it. *)
Lemma chain_after_page pg runtimes o t :
  paginated (next_token pg) runtimes o t ->
  token_chain EmptyString
    (EvGetAllRuntimes var_p EmptyString (Ok (Some pg)) :: t).
Proof.
  intros H. destruct t as [|e rest]; [constructor|].
  constructor; [|by eapply paginated_chain].
  intros Hnil. rewrite Hnil in H. by apply paginated_empty_token in H.
Qed.

Lemma last_page_ends tok0 tok runtimes o t pg0 tk pg :
  paginated tok runtimes o t ->
  tok = next_token pg0 ->
  o <> NoFuel ->
  last (EvGetAllRuntimes var_p tok0 (Ok (Some pg0)) :: t)
  = Some (EvGetAllRuntimes var_p tk (Ok (Some pg))) ->
  next_token pg = EmptyString.
Proof.
  intros H. revert tok0 pg0.
  induction H as [| tok runtimes pg1 o t Htok Hp IH | | |];
    intros tok0 pg0 Heq Ho Hlast; try done.
  - simpl in Hlast. by simplify_eq.
  - apply (IH tok pg1); [done|done|]. by rewrite last_cons_cons in Hlast.
Qed.

Lemma gathered_app t1 t2 : gathered (t1 ++ t2) = gathered t1 ++ gathered t2.
Proof. unfold gathered. by rewrite map_app, concat_app. Qed.

Lemma gathered_cons e t :
  gathered (e :: t)
  = match e with
    | EvGetAllRuntimes _ _ (Ok r) => runtimes_of r
    | _ => []
    end ++ gathered t.
Proof. reflexivity. Qed.

Lemma gathered_nil : gathered [] = [].
Proof. reflexivity. Qed.

End Pagination.

Ltac wp_any_step :=
  lazymatch goal with
  | |- wp (fetch_more _ _ _ _) _ _ =>
      apply wp_fetch_any;
      let o := fresh "o" in let Hp := fresh "Hpages" in
      intros o ? ? Hp; destruct o
  | |- wp (dump _ _) _ _ =>
      apply wp_dump; let err := fresh "err" in
      intros ? err ? _; destruct err
  | _ => wp_step
  end.

Ltac wp_populate_any :=
  unfold populate_engine_runtimes_mapping, _read_config_file,
    _configure_project_command_logging, new_importer;
  cbn [read_keys];
  repeat wp_any_step.

(** The projection [f] of the trace of the path at hand, when [f] keeps no
    fetch. *)
Ltac project_pages f :=
  cbn [app List.filter f];
  rewrite ?List.filter_app;
  repeat match goal with
    | H : paginated _ _ _ ?t |- context [List.filter f ?t] =>
        rewrite (paginated_filter f _ _ _ _ H) by (intros; reflexivity)
    end;
  cbn [app List.filter f];
  units.

Ltac project_pages_in f H :=
  cbn [app List.filter f] in H;
  rewrite ?List.filter_app in H;
  repeat match goal with
    | Hp : paginated _ _ _ ?t |- _ =>
        rewrite (paginated_filter f _ _ _ _ Hp) in H by (intros; reflexivity)
    end;
  cbn [app List.filter f] in H.

Ltac use_step f H :=
  apply (filter_elem f) in H; [|reflexivity]; project_pages_in f H; in_list.

(** Membership of a fetch in the trace of the path at hand. *)
Ltac use_fetch Hin :=
  apply (filter_elem is_fetch) in Hin; [|reflexivity];
  cbn [app List.filter is_fetch] in Hin; rewrite ?List.filter_app in Hin;
  cbn [app List.filter is_fetch] in Hin;
  repeat match goal with
    | H : paginated _ _ _ ?t |- _ =>
        rewrite (paginated_fetches _ _ _ _ H) in Hin
    end;
  rewrite ?app_nil_r in Hin; in_list.

Section CatalogRuns.
Context {W Obj Validator : Type} {collab : Collaborators W Obj Validator}.

(** X7: what the command hands to the parser is never empty, and it is the
    runtimes of all the pages that the fetches of the run returned, in the
    order of the fetches. *)
Theorem parser_receives_all_runtimes fuel (s : state W Obj) runtimes r :
  let t := trace_of (populate_engine_runtimes_mapping fuel) s in
  EvParseRuntimes runtimes r ∈ t ->
  runtimes = gathered t /\ runtimes <> [].
Proof.
  intros t. subst t. revert runtimes r.
  set (Q := fun t : list event =>
              forall runtimes r,
                EvParseRuntimes runtimes r ∈ t ->
                runtimes = gathered t /\ runtimes <> []).
  change (wp (populate_engine_runtimes_mapping fuel) s (fun _ _ t => Q t)).
  wp_populate_any; subst Q; cbv beta;
    intros rts res Hin; use_step is_parse Hin.
  all: split; [|by apply gathered_some].
  all: repeat (rewrite ?gathered_app, ?gathered_cons, ?gathered_nil;
               cbn [app runtimes_of]).
  all: match goal with
       | H : paginated _ _ (Ret _) _ |- _ =>
           apply paginated_gathered in H; rewrite H
       end.
  all: by rewrite ?app_nil_r.
Qed.

(** X8: the fetches of a run follow the page tokens: the first is made
    with the empty token and each later one with the token of the page
    before it, which is not empty; a run that was not cut off stops
    fetching after a page only when that page has no token. *)
Theorem fetches_follow_the_page_tokens fuel (s : state W Obj) :
  let o := outcome_of (populate_engine_runtimes_mapping fuel) s in
  let t := trace_of (populate_engine_runtimes_mapping fuel) s in
  token_chain EmptyString (List.filter is_fetch t) /\
  (o <> NoFuel ->
   forall tok pg,
     last (List.filter is_fetch t)
     = Some (EvGetAllRuntimes var_p tok (Ok (Some pg))) ->
     next_token pg = EmptyString).
Proof.
  intros o t. subst o t.
  set (Q := fun (o : outcome unit) (t : list event) =>
              token_chain EmptyString (List.filter is_fetch t) /\
              (o <> NoFuel ->
               forall tok pg,
                 last (List.filter is_fetch t)
                 = Some (EvGetAllRuntimes var_p tok (Ok (Some pg))) ->
                 next_token pg = EmptyString)).
  change (wp (populate_engine_runtimes_mapping fuel) s (fun o _ t => Q o t)).
  wp_populate_any; subst Q; cbv beta.
  all: cbn [app List.filter is_fetch]; rewrite ?List.filter_app;
    cbn [app List.filter is_fetch];
    repeat match goal with
      | H : paginated _ _ _ ?t |- context [List.filter is_fetch ?t] =>
          rewrite (paginated_fetches _ _ _ _ H)
      end; rewrite ?app_nil_r.
  all: split; [first [by constructor | by eapply chain_after_page]|].
  all: intros Ho tok pg Hlast; try done.
  all: eapply last_page_ends; [eassumption|reflexivity|done|exact Hlast].
Qed.

(** X9: when the first fetch gets no response, the command logs it and
    returns: it makes no other fetch, parses nothing and writes nothing. *)
Theorem empty_first_response_ends_the_command fuel (s : state W Obj) x :
  let m := populate_engine_runtimes_mapping fuel in
  EvGetAllRuntimes x EmptyString (Ok None) ∈ trace_of m s ->
  outcome_of m s = Ret tt /\
  files (state_of m s) = files s /\
  List.filter is_log (trace_of m s) = [empty_response_log] /\
  List.filter is_catalog_step (trace_of m s)
  = [EvGetAllRuntimes var_p EmptyString (Ok None)].
Proof.
  intros m. subst m. revert x.
  set (Q := fun (o : outcome unit) (s' : state W Obj) (t : list event) =>
              forall x,
                EvGetAllRuntimes x EmptyString (Ok None) ∈ t ->
                o = Ret tt /\ files s' = files s /\
                List.filter is_log t = [empty_response_log] /\
                List.filter is_catalog_step t
                = [EvGetAllRuntimes var_p EmptyString (Ok None)]).
  change (wp (populate_engine_runtimes_mapping fuel) s Q).
  wp_populate_any; subst Q; cbv beta; intros x Hin; use_fetch Hin.
  all: try (by eapply paginated_tokens in Hin).
  by repeat split.
Qed.

(** X10: a run that returns without having called the parser has gathered
    no runtime and has left the files as they were; it has logged one
    record: that the first response was empty, or that no runtimes are
    present. *)
Theorem nothing_gathered_nothing_written fuel (s : state W Obj) :
  let m := populate_engine_runtimes_mapping fuel in
  outcome_of m s = Ret tt ->
  List.filter is_parse (trace_of m s) = [] ->
  gathered (trace_of m s) = [] /\
  files (state_of m s) = files s /\
  (List.filter is_log (trace_of m s) = [empty_response_log] \/
   List.filter is_log (trace_of m s) = [no_runtimes_log]).
Proof.
  intros m. subst m.
  set (Q := fun (o : outcome unit) (s' : state W Obj) (t : list event) =>
              o = Ret tt ->
              List.filter is_parse t = [] ->
              gathered t = [] /\ files s' = files s /\
              (List.filter is_log t = [empty_response_log] \/
               List.filter is_log t = [no_runtimes_log])).
  change (wp (populate_engine_runtimes_mapping fuel) s Q).
  wp_populate_any; subst Q; cbv beta;
    intros Hret Hparse; try discriminate Hret.
  all: project_pages_in is_parse Hparse; try discriminate Hparse.
  all: split; [|split; [reflexivity|]].
  all: try (by left). all: try (right; by project_pages is_log).
  all: repeat (rewrite ?gathered_app, ?gathered_cons, ?gathered_nil;
               cbn [app runtimes_of]); try done.
  match goal with
  | H : paginated _ _ (Ret _) _ , Hb : bool_decide _ = false |- _ =>
      apply gathered_none in Hb; apply paginated_gathered in H;
      rewrite Hb in H; rewrite !app_nil_r; symmetry; exact H
  end.
Qed.

(** X11: a failure to open the catalog file or to write it is not a
    failure of the command: it logs one error record and returns.  When
    the file could not be opened the files are as before; when the dump
    raised, the catalog file holds what had been written till then. *)
Theorem write_failure_is_logged fuel (s : state W Obj) :
  let m := populate_engine_runtimes_mapping fuel in
  (forall path e, EvOpenWrite path (Err e) ∈ trace_of m s ->
     outcome_of m s = Ret tt /\
     files (state_of m s) = files s /\
     exists path', List.filter is_error_log (trace_of m s)
                   = [write_error_log path']) /\
  (forall doc text e, EvDump doc text (Some e) ∈ trace_of m s ->
     outcome_of m s = Ret tt /\
     (exists path,
        EvOpenWrite path (Ok tt) ∈ trace_of m s /\
        files (state_of m s) = <[path := text]> (files s)) /\
     exists path', List.filter is_error_log (trace_of m s)
                   = [write_error_log path']).
Proof.
  intros m. subst m.
  set (Q := fun (o : outcome unit) (s' : state W Obj) (t : list event) =>
              (forall path e, EvOpenWrite path (Err e) ∈ t ->
                 o = Ret tt /\ files s' = files s /\
                 exists path', List.filter is_error_log t
                               = [write_error_log path']) /\
              (forall doc text e, EvDump doc text (Some e) ∈ t ->
                 o = Ret tt /\
                 (exists path,
                    EvOpenWrite path (Ok tt) ∈ t /\
                    files s' = <[path := text]> (files s)) /\
                 exists path', List.filter is_error_log t
                               = [write_error_log path'])).
  change (wp (populate_engine_runtimes_mapping fuel) s Q).
  wp_populate_any; subst Q; cbv beta.
  all: split;
    [ intros path e' Hin; use_step is_open_write Hin
    | intros doc text e' Hin; use_step is_dump Hin ].
  - split; [done|]. split; [|eexists; by project_pages is_error_log].
    eexists. split.
    + eapply proj1, (elem_filter is_open_write).
      project_pages is_open_write. apply list_elem_of_here.
    + cbn [files]. by rewrite insert_insert_eq.
  - split; [done|]. split; [done|]. eexists. by project_pages is_error_log.
Qed.

(** X12: the command handles no error of the listing or of the parser: it
    raises what they raise and writes nothing; and it never calls
    [exit]. *)
Theorem listing_errors_are_raised fuel (s : state W Obj) :
  let m := populate_engine_runtimes_mapping fuel in
  (forall x tok e, EvGetAllRuntimes x tok (Err e) ∈ trace_of m s ->
     outcome_of m s = Raise e /\
     files (state_of m s) = files s /\
     List.filter is_parse (trace_of m s) = []) /\
  (forall runtimes e, EvParseRuntimes runtimes (Err e) ∈ trace_of m s ->
     outcome_of m s = Raise e /\ files (state_of m s) = files s) /\
  List.filter is_exit (trace_of m s) = [].
Proof.
  intros m. subst m.
  set (Q := fun (o : outcome unit) (s' : state W Obj) (t : list event) =>
              (forall x tok e, EvGetAllRuntimes x tok (Err e) ∈ t ->
                 o = Raise e /\ files s' = files s /\
                 List.filter is_parse t = []) /\
              (forall runtimes e, EvParseRuntimes runtimes (Err e) ∈ t ->
                 o = Raise e /\ files s' = files s) /\
              List.filter is_exit t = []).
  change (wp (populate_engine_runtimes_mapping fuel) s Q).
  wp_populate_any; subst Q; cbv beta.
  all: split; [|split; [|by project_pages is_exit]].
  all: try (intros rts e' Hin; by use_step is_parse Hin).
  all: intros x tok e' Hin; use_fetch Hin.
  all: try (split; [done|split; [done|by project_pages is_parse]]).
  all: match goal with
       | Hp : paginated _ _ _ ?t, Hin : _ ∈ ?t |- _ =>
           pose proof (paginated_raised _ _ _ _ _ _ _ Hp Hin); simplify_eq
       end.
  all: split; [done|split; [done|by project_pages is_parse]].
Qed.
End CatalogRuns.

(** ** The runtime catalog, from the first fetch on *)

Section CatalogCommand.
Context {W Obj Validator : Type} {collab : Collaborators W Obj Validator}.

Lemma wp_succeeds_quiet {A} (op : W -> result A * W) (s : state W Obj) Q :
  succeeds op ->
  (forall a w, Q (Ret a) (mkState w (local s) (files s)) []) ->
  wp (call_quiet op) s Q.
Proof.
  intros Hop HQ. apply wp_call_quiet. intros r w Hcall.
  destruct (Hop (world s)) as [a Ha]. rewrite Hcall in Ha. simpl in Ha.
  subst r. apply HQ.
Qed.

Lemma wp_succeeds {A} (ev : result A -> event) (op : W -> result A * W)
    (s : state W Obj) Q :
  succeeds op ->
  (forall a w, Q (Ret a) (mkState w (local s) (files s)) [ev (Ok a)]) ->
  wp (call ev op) s Q.
Proof.
  intros Hop HQ. apply wp_call. intros r w Hcall.
  destruct (Hop (world s)) as [a Ha]. rewrite Hcall in Ha. simpl in Ha.
  subst r. apply HQ.
Qed.

(** The loop over the keys when [config.get] has them all. *)
Lemma wp_read_keys_ready pn keys cfg (s : state W Obj) Q :
  (forall k, k ∈ keys -> succeeds (config_get pn k)) ->
  (forall cfg' w,
     dom cfg' = list_to_set keys ∪ dom cfg ->
     Q (Ret cfg') (mkState w (local s) (files s)) []) ->
  wp (read_keys pn keys cfg) s Q.
Proof.
  revert cfg s Q.
  induction keys as [|k keys IH]; intros cfg s Q Hkeys HQ; cbn [read_keys].
  - wp_step. destruct s. apply HQ. cbn [list_to_set].
    by rewrite (left_id_L ∅ (∪)).
  - apply wp_bind, wp_try, wp_bind.
    apply wp_succeeds_quiet; [apply Hkeys; constructor|intros v w].
    cbn [then_]. wp_step. cbn [caught then_ app local files].
    apply IH.
    + intros k' Hk'. apply Hkeys. by constructor.
    + intros cfg' w' Hdom. cbn [local files]. apply HQ.
      rewrite Hdom, dom_setdefault. cbn [list_to_set].
      apply set_eq. intros x.
      rewrite !elem_of_union, !elem_of_singleton. tauto.
Qed.

(** [_read_config_file] on a file that is there and has the options. *)
Lemma wp_read_config_ready fp pn (s : state W Obj) Q :
  os_path_exists fp (world s) = true ->
  succeeds (config_read fp) ->
  (forall k, k ∈ required_keys -> succeeds (config_get pn k)) ->
  succeeds (config_get_fallback pn CA_PATH_KEY EmptyString) ->
  (forall cfg w,
     dom cfg = config_keys ->
     Q (Ret cfg) (mkState w (local s) (files s)) []) ->
  wp (_read_config_file fp pn) s Q.
Proof.
  intros Hex Hread Hkeys Hca HQ.
  unfold _read_config_file. wp_step. wp_step. wp_step. rewrite Hex.
  apply wp_bind, wp_succeeds_quiet; [done|intros [] w]. cbn [then_].
  apply wp_bind, wp_read_keys_ready; [exact Hkeys|intros cfg w' Hdom].
  cbn [then_ local files].
  apply wp_bind, wp_succeeds_quiet; [done|intros ca w'']. cbn [then_].
  wp_step. cbn [app local files]. apply HQ.
  rewrite dom_insert_L, Hdom, dom_empty_L. unfold config_keys.
  cbn [list_to_set]. apply set_eq. intros x.
  rewrite !elem_of_union, !elem_of_singleton, !elem_of_empty. tauto.
Qed.

Lemma config_key_present (cfg : gmap string string) k :
  dom cfg = config_keys ->
  k ∈ required_keys ++ [CA_PATH_KEY] ->
  is_Some (cfg !! k).
Proof.
  intros Hdom Hk. apply elem_of_dom. rewrite Hdom. unfold config_keys.
  unfold required_keys in Hk. cbn [app] in Hk.
  rewrite !elem_of_union, !elem_of_singleton.
  in_list; tauto.
Qed.

(** One finished path of the command, once the first fetch is made. *)
Ltac catalog_built_path :=
  units; project is_catalog_step; rewrite ?filter_fetches; cbn [app];
  rewrite ?app_nil_r; cbn [files];
  eexists; split;
    [ cbn [fetches app];
      first [reflexivity | f_equal; symmetry; apply app_nil_r]
    | cbn [concat fmap list_fmap runtimes_of];
      rewrite ?insert_insert_eq;
      first
        [ apply cw_nothing; by apply gathered_none
        | apply cw_unparsed; by apply gathered_some
        | apply cw_unopened; by apply gathered_some
        | apply cw_written; by apply gathered_some ] ].

(** A look-up of one of the five keys in the dictionary that
    [_read_config_file] returned. *)
Ltac wp_config_key Hdom :=
  apply wp_bind; unfold getitem at 1;
  lazymatch goal with
  | |- wp (match ?d !! ?k with _ => _ end) _ _ =>
      let Hk := fresh "Hk" in
      destruct (config_key_present d k Hdom) as [? Hk];
      [ unfold required_keys; cbn [app];
        repeat first [apply list_elem_of_here | apply list_elem_of_further]
      | rewrite Hk; wp_step; unfold then_ at 1 ]
  end.

Lemma populate_builds_catalog fuel (s : state W Obj) pg rest :
  catalog_ready s ->
  answers EmptyString (Some pg) ->
  serves_more (next_token pg) rest ->
  length rest <= fuel ->
  wp (populate_engine_runtimes_mapping fuel) s
    (fun o s' t =>
       catalog_built (Some pg :: rest) (files s) o (files s')
         (List.filter is_catalog_step t)).
Proof.
  intros (Hex & Hread & Hkeys & Hca & Habs & Hmk & Hlog & Hnew) Hans Hs Hfuel.
  unfold populate_engine_runtimes_mapping.
  wp_step. wp_step. wp_step.
  apply wp_bind, wp_read_config_ready; [exact Hex|done|done|done|].
  intros cfg w0 Hdom. unfold then_ at 1.
  do 5 wp_config_key Hdom.
  apply wp_bind, wp_succeeds_quiet; [done|intros dir w1]. unfold then_ at 1.
  apply wp_bind, wp_succeeds_quiet; [done|intros ca w2]. unfold then_ at 1.
  cbv zeta. apply wp_bind. unfold _configure_project_command_logging.
  apply wp_bind, wp_succeeds; [done|intros [] w3]. unfold then_ at 1.
  apply wp_bind, wp_succeeds; [done|intros [] w4]. unfold then_ at 1.
  wp_step. unfold then_ at 1.
  apply wp_bind. unfold new_importer.
  apply wp_succeeds; [done|intros p w5]. unfold then_ at 1.
  cbv zeta. apply wp_bind, wp_call. intros r w6 Hcall.
  pose proof (Hans p (world (mkState w5 (local s) (files s)))) as Hr.
  cbn [world local files] in Hcall, Hr.
  rewrite Hcall in Hr. simpl in Hr. subst r. unfold of_result, then_ at 1.
  cbv beta iota zeta. apply wp_bind.
  apply (wp_fetch_more _ _ _ _ rest); [exact Hs|exact Hfuel|intros w'].
  repeat wp_step.
  all: try catalog_built_path.
  all: apply wp_dump; intros written [e'|] w'' Hd; repeat wp_step.
  all: catalog_built_path.
Qed.

(** C7: when nothing stands in the way of the command before its first
    fetch, against a listing that answers the empty token with a page and
    serves the pages that follow, with fuel for all of them, the command
    fetches page after page, starting with the empty token and going on with
    each next token until a page has none; it gathers the runtimes of the
    pages in order, and then: with no runtime at all it writes nothing and
    returns; otherwise it has them parsed and the catalog written, once, at
    the catalog path, where the text written replaces what the file held. *)
Theorem catalog_built_from_all_pages fuel (s : state W Obj) pg pages :
  catalog_ready s ->
  answers EmptyString (Some pg) ->
  serves_more (next_token pg) (Some <$> pages) ->
  length pages <= fuel ->
  let m := populate_engine_runtimes_mapping fuel in
  catalog_built (Some <$> pg :: pages) (files s)
    (outcome_of m s) (files (state_of m s))
    (List.filter is_catalog_step (trace_of m s)).
Proof.
  intros Hready Hans Hs Hfuel m.
  assert (length (Some <$> pages) <= fuel) as Hlen by by rewrite length_fmap.
  exact (populate_builds_catalog fuel s pg (Some <$> pages) Hready Hans Hs Hlen).
Qed.

(** C2, as the code has it: when nothing stands in the way of the command
    before its first fetch and, after a first page with runtimes and any
    number of further pages, a fetch gets no response, the loop stops there
    and the command goes on with the runtimes of the pages it has received:
    they are handed to the parser, in order, and the catalog is written from
    them. *)
Theorem catalog_keeps_pages_before_lost_response fuel (s : state W Obj)
    pg pages :
  catalog_ready s ->
  answers EmptyString (Some pg) ->
  serves_more (next_token pg) ((Some <$> pages) ++ [None]) ->
  runtimes_of (Some pg) <> [] ->
  length pages < fuel ->
  let m := populate_engine_runtimes_mapping fuel in
  let kept := concat (runtimes_of <$> (Some <$> pg :: pages)) in
  exists r tail,
    List.filter is_catalog_step (trace_of m s)
    = fetches EmptyString ((Some <$> pg :: pages) ++ [None])
      ++ EvParseRuntimes kept r :: tail /\
    catalog_written kept (files s) (outcome_of m s) (files (state_of m s))
      (EvParseRuntimes kept r :: tail).
Proof.
  intros Hready Hans Hs Hsome Hfuel m kept.
  assert (length ((Some <$> pages) ++ [None]) <= fuel) as Hlen.
  { rewrite length_app, length_fmap. simpl. lia. }
  destruct (populate_builds_catalog fuel s pg _ Hready Hans Hs Hlen)
    as (tail & Hk & Hw).
  fold m in Hk, Hw.
  assert (concat (runtimes_of <$> Some pg :: (Some <$> pages) ++ [None]) = kept)
    as Hkept.
  { unfold kept. rewrite !fmap_cons. cbn [concat].
    rewrite fmap_app, concat_app. simpl. by rewrite !app_nil_r. }
  rewrite Hkept in Hw.
  assert (kept <> []) as Hne.
  { unfold kept. rewrite !fmap_cons. cbn [concat]. intros Hnil.
    by apply app_eq_nil in Hnil as [? _]. }
  rewrite fmap_cons. cbn [app].
  inversion Hw; subst; try congruence;
    do 2 eexists; (split; [exact Hk|by constructor]).
Qed.
End CatalogCommand.

(** ** The logging set-up *)

Section Logging.
Context {W Obj Validator : Type} {collab : Collaborators W Obj Validator}.

Lemma prefix_before_record (setup rest pre : list event) e post :
  List.filter is_log setup = [] -> is_log e = true ->
  setup ++ rest = pre ++ e :: post -> setup `prefix_of` pre.
Proof.
  revert pre. induction setup as [|a setup IH]; intros pre Hs He Heq.
  - apply prefix_nil.
  - simpl in Hs. destruct (is_log a) eqn:Ha; [done|].
    destruct pre as [|b pre]; simpl in Heq; simplify_eq; [congruence|].
    apply prefix_cons. by apply IH.
Qed.

Lemma set_up_first_logged pn t : set_up_first pn t -> logged_after_setup pn t.
Proof.
  intros [Hnone|(out & rest & ->)] pre e post He Heq.
  - rewrite Heq, filter_split in Hnone by done. by destruct (List.filter _ pre).
  - exists out. by eapply prefix_before_record.
Qed.

Ltac set_up_path :=
  first
    [ left; by project_pages is_log
    | left; by project is_log
    | right; cbn [app]; rewrite ?app_nil_r; units; do 2 eexists; reflexivity ].

Lemma export_sets_up_first pn (s : state W Obj) :
  wp (project_export_cmd pn) s (fun _ _ t => set_up_first pn t).
Proof. wp_export; set_up_path. Qed.

Lemma import_sets_up_first pn (s : state W Obj) :
  wp (project_import_cmd pn) s (fun _ _ t => set_up_first pn t).
Proof. wp_import; set_up_path. Qed.

Lemma populate_sets_up_first fuel (s : state W Obj) :
  wp (populate_engine_runtimes_mapping fuel) s
    (fun _ _ t => set_up_first "DEFAULT" t).
Proof. wp_populate_any; set_up_path. Qed.

(** X13: in every run of the three commands, a record is logged only after
    the logging has been set up: the log directory made, the handlers
    configured on the log file in it, and the record factory installed for
    the project name (["DEFAULT"] for the runtime catalog). *)
Theorem logging_is_set_up_before_any_record pn fuel (s : state W Obj) :
  logged_after_setup pn (trace_of (project_export_cmd pn) s) /\
  logged_after_setup pn (trace_of (project_import_cmd pn) s) /\
  logged_after_setup "DEFAULT"
    (trace_of (populate_engine_runtimes_mapping fuel) s).
Proof.
  split; [|split]; apply set_up_first_logged.
  - apply export_sets_up_first.
  - apply import_sets_up_first.
  - apply populate_sets_up_first.
Qed.
End Logging.

(** ** The end of a run *)

Lemma last_of_tail {A} (l1 l2 : list A) x :
  last l2 = Some x -> last (l1 ++ l2) = Some x.
Proof. intros H. by rewrite last_app, H. Qed.

Ltac last_event :=
  let Hin := fresh "Hin" in
  intros Hin; use_event is_exit Hin;
  repeat lazymatch goal with
    | |- last (?l ++ []) = _ => rewrite (app_nil_r l)
    | |- last (_ ++ _) = _ => apply last_of_tail
    end;
  reflexivity.

Ltac end_path :=
  project is_closing;
  first
    [ by constructor
    | eapply ee_handled; by constructor
    | eapply ie_handled; by constructor
    | econstructor; by constructor ].

(** Cases of the closing steps of a run. *)
Ltac end_inv H :=
  inversion H; subst;
  repeat match goal with
    | Hh : handler_end _ _ _ _ _ |- _ => inversion Hh; subst; clear Hh
    end;
  repeat match goal with
    | Heq : _ = List.filter _ _ |- _ => rewrite <- Heq in *; clear Heq
    end.

Section Handler.
Context {W Obj Validator : Type} {collab : Collaborators W Obj Validator}.

Lemma export_ends pn (s : state W Obj) :
  wp (project_export_cmd pn) s
    (fun o _ t =>
       export_end o (List.filter is_closing t) /\
       (EvExit ∈ t -> last t = Some EvExit)).
Proof. wp_export; (split; [end_path|last_event]). Qed.

Lemma import_ends pn (s : state W Obj) :
  wp (project_import_cmd pn) s
    (fun o _ t =>
       import_end o (List.filter is_closing t) /\
       (EvExit ∈ t -> last t = Some EvExit)).
Proof. wp_import; (split; [end_path|last_event]). Qed.

(** X14: when a run of the export or of the import calls [exit], that is
    the last thing it does: the command ends with [SystemExit], and the
    handler has logged one exception. *)
Theorem exit_is_the_last_step pn (s : state W Obj) :
  (EvExit ∈ trace_of (project_export_cmd pn) s ->
   left_through_exit (outcome_of (project_export_cmd pn) s)
     (trace_of (project_export_cmd pn) s)) /\
  (EvExit ∈ trace_of (project_import_cmd pn) s ->
   left_through_exit (outcome_of (project_import_cmd pn) s)
     (trace_of (project_import_cmd pn) s)).
Proof.
  unfold left_through_exit. split; intros Hin.
  - destruct (export_ends pn s) as [Hend Hlast].
    rewrite <- (filter_sub is_exception_log is_closing) by (by intros []).
    split; [|split; [by apply Hlast|]];
      apply (filter_elem is_closing) in Hin; try reflexivity;
      end_inv Hend; in_list; try done; by eexists.
  - destruct (import_ends pn s) as [Hend Hlast].
    rewrite <- (filter_sub is_exception_log is_closing) by (by intros []).
    split; [|split; [by apply Hlast|]];
      apply (filter_elem is_closing) in Hin; try reflexivity;
      end_inv Hend; in_list; try done; by eexists.
Qed.

(** X15: when the last terminate call of a run raises, the command ends
    with what it raised: the handler was at work (one exception has been
    logged), and [exit] is not called. *)
Theorem failed_terminate_replaces_exit pn (s : state W Obj) x e :
  (last (List.filter is_terminate (trace_of (project_export_cmd pn) s))
   = Some (EvTerminate x (Err e)) ->
   left_through_terminate e (outcome_of (project_export_cmd pn) s)
     (trace_of (project_export_cmd pn) s)) /\
  (last (List.filter is_terminate (trace_of (project_import_cmd pn) s))
   = Some (EvTerminate x (Err e)) ->
   left_through_terminate e (outcome_of (project_import_cmd pn) s)
     (trace_of (project_import_cmd pn) s)).
Proof.
  unfold left_through_terminate.
  split; intros Hlast.
  - destruct (export_ends pn s) as [Hend _].
    rewrite <- (filter_sub is_terminate is_closing) in Hlast by (by intros []).
    rewrite <- (filter_sub is_exit is_closing) by (by intros []).
    rewrite <- (filter_sub is_exception_log is_closing) by (by intros []).
    end_inv Hend; simpl in Hlast; simplify_eq; by eauto.
  - destruct (import_ends pn s) as [Hend _].
    rewrite <- (filter_sub is_terminate is_closing) in Hlast by (by intros []).
    rewrite <- (filter_sub is_exit is_closing) by (by intros []).
    rewrite <- (filter_sub is_exception_log is_closing) by (by intros []).
    end_inv Hend; simpl in Hlast; simplify_eq; by eauto.
Qed.

(** X16: an export returns exactly when the dump of the metadata has
    returned; then no exception has been logged, terminate has not been
    called and [exit] has not been called. *)
Theorem export_returns_after_the_dump pn (s : state W Obj) :
  let o := outcome_of (project_export_cmd pn) s in
  let t := trace_of (project_export_cmd pn) s in
  (o = Ret tt <-> EvDumpMetadata var_pexport (Ok tt) ∈ t) /\
  (o = Ret tt ->
   List.filter is_closing t = [EvDumpMetadata var_pexport (Ok tt)]).
Proof.
  intros o t. subst o t. destruct (export_ends pn s) as [Hend _].
  split; [split|].
  - intros Ho. eapply proj1, (elem_filter is_closing).
    end_inv Hend; try congruence. apply list_elem_of_here.
  - intros Hin. apply (filter_elem is_closing) in Hin; [|done].
    end_inv Hend; by in_list.
  - intros Ho. end_inv Hend; congruence.
Qed.

(** X17: an import returns exactly when the import of the metadata has
    returned; its closing steps are then the terminate call after the
    transfer and that import: no exception has been logged and [exit] has
    not been called. *)
Theorem import_returns_after_the_metadata pn (s : state W Obj) :
  let o := outcome_of (project_import_cmd pn) s in
  let t := trace_of (project_import_cmd pn) s in
  (o = Ret tt <-> exists id, EvImportMetadata var_pimport id (Ok tt) ∈ t) /\
  (o = Ret tt ->
   exists id,
     List.filter is_closing t
     = [EvTerminate var_pimport (Ok tt);
        EvImportMetadata var_pimport id (Ok tt)]).
Proof.
  intros o t. subst o t. destruct (import_ends pn s) as [Hend _].
  assert (outcome_of (project_import_cmd pn) s = Ret tt ->
          exists id,
            List.filter is_closing (trace_of (project_import_cmd pn) s)
            = [EvTerminate var_pimport (Ok tt);
               EvImportMetadata var_pimport id (Ok tt)]) as Hdone.
  { intros Ho. end_inv Hend; try congruence. by eexists. }
  split; [split|done].
  - intros Ho. destruct (Hdone Ho) as [id Hk]. exists id.
    eapply proj1, (elem_filter is_closing). rewrite Hk.
    apply list_elem_of_further, list_elem_of_here.
  - intros [id Hin]. apply (filter_elem is_closing) in Hin; [|done].
    end_inv Hend; by in_list.
Qed.
End Handler.

(** ** The objects of a run *)

Section Objects.
Context {W Obj Validator : Type} {collab : Collaborators W Obj Validator}.

(** X18: the export resolves the creator of the project with a first
    exporter, built with the project name as slug and an empty owner type.
    The validators and the exporter that transfers are built for the
    creator it found, with the slug (and the owner type) of that answer,
    and with the settings of the first exporter. *)
Theorem export_acts_as_the_creator pn (s : state W Obj) x cu slug ot :
  let t := trace_of (project_export_cmd pn) s in
  EvGetCreatorUsername x (Ok [Some cu; slug; ot]) ∈ t ->
  exists a0,
    EvNewExporter var_pobj a0 (Ok tt) ∈ t /\
    ex_project_name a0 = pn /\ ex_project_slug a0 = Some pn /\
    ex_owner_type a0 = Some EmptyString /\
    (forall va r, EvInitValidators va r ∈ t ->
       va_username va = cu /\ va_project_slug va = Some slug /\
       validator_settings va = exporter_settings a0) /\
    (forall a r, EvNewExporter var_pexport a r ∈ t ->
       ex_username a = cu /\ ex_project_slug a = slug /\
       ex_owner_type a = ot /\
       exporter_settings a = exporter_settings a0).
Proof.
  intros t. subst t. revert x cu slug ot.
  set (Q := fun t : list event =>
              forall x cu slug ot,
                EvGetCreatorUsername x (Ok [Some cu; slug; ot]) ∈ t ->
                exists a0,
                  EvNewExporter var_pobj a0 (Ok tt) ∈ t /\
                  ex_project_name a0 = pn /\ ex_project_slug a0 = Some pn /\
                  ex_owner_type a0 = Some EmptyString /\
                  (forall va r, EvInitValidators va r ∈ t ->
                     va_username va = cu /\ va_project_slug va = Some slug /\
                     validator_settings va = exporter_settings a0) /\
                  (forall a r, EvNewExporter var_pexport a r ∈ t ->
                     ex_username a = cu /\ ex_project_slug a = slug /\
                     ex_owner_type a = ot /\
                     exporter_settings a = exporter_settings a0)).
  change (wp (project_export_cmd pn) s (fun _ _ t => Q t)).
  wp_export; subst Q; cbv beta;
    intros x cu slug ot Hin; use_event is_get_creator Hin.
  all: eexists; split; [find_event is_new_exporter|].
  all: split; [done|split; [done|split; [done|]]].
  all: split;
    [ intros vargs rv Hv; by use_event is_init_validators Hv
    | intros args rn Ha; by use_event is_new_exporter Ha ].
Qed.

(** X19: the import builds its first importer for the configured user,
    with the project name as slug.  The validators get the same user and
    settings and no slug; the importer that transfers gets the same
    settings, and as slug the one that the creator lookup on the first
    importer gave. *)
Theorem import_objects_share_the_settings pn (s : state W Obj) a0 r0 :
  let t := trace_of (project_import_cmd pn) s in
  EvNewImporter var_p a0 r0 ∈ t ->
  im_project_name a0 = pn /\ im_project_slug a0 = Some pn /\
  (forall va r, EvInitValidators va r ∈ t ->
     JStr (va_username va) = im_username a0 /\ va_project_slug va = None /\
     validator_settings va = importer_settings a0) /\
  (forall a r, EvNewImporter var_pimport a r ∈ t ->
     importer_settings a = importer_settings a0 /\
     exists creator,
       EvGetCreatorUsername var_p (Ok [creator; im_project_slug a]) ∈ t).
Proof.
  intros t. subst t. revert a0 r0.
  set (Q := fun t : list event =>
              forall a0 r0,
                EvNewImporter var_p a0 r0 ∈ t ->
                im_project_name a0 = pn /\ im_project_slug a0 = Some pn /\
                (forall va r, EvInitValidators va r ∈ t ->
                   JStr (va_username va) = im_username a0 /\
                   va_project_slug va = None /\
                   validator_settings va = importer_settings a0) /\
                (forall a r, EvNewImporter var_pimport a r ∈ t ->
                   importer_settings a = importer_settings a0 /\
                   exists creator,
                     EvGetCreatorUsername var_p
                       (Ok [creator; im_project_slug a]) ∈ t)).
  change (wp (project_import_cmd pn) s (fun _ _ t => Q t)).
  wp_import; subst Q; cbv beta;
    intros args0 res0 Hin; use_event is_new_importer Hin.
  all: split; [done|split; [done|]].
  all: split;
    [ intros vargs rv Hv; by use_event is_init_validators Hv
    | intros args rn Ha; use_event is_new_importer Ha ].
  all: split; [done|eexists; find_event is_get_creator].
Qed.

(** X20: the import creates the project only when the lookup found none:
    the creation is called once, on the first importer, after it has been
    logged; no warning is logged; the metadata import, if the run gets
    there, receives the id that the creation returned; and when the
    creation raises, the handler logs it and nothing is transferred. *)
Theorem project_is_created_when_not_found pn (s : state W Obj) x md r :
  let o := outcome_of (project_import_cmd pn) s in
  let t := trace_of (project_import_cmd pn) s in
  EvCreateProject x md r ∈ t ->
  (exists name,
     List.filter is_check_project t
     = [EvCheckProjectExist var_p name (Ok None)]) /\
  List.filter is_create t = [EvCreateProject var_p md r] /\
  List.filter is_warning t = [] /\
  creating_log pn ∈ t /\
  (forall y project_id r', EvImportMetadata y project_id r' ∈ t ->
     r = Ok project_id) /\
  (forall e, r = Err e ->
     o = Raise SystemExit /\
     List.filter is_exception_log t = [exception_log e] /\
     List.filter is_session t = []).
Proof.
  intros o t. subst o t. revert x md r.
  set (Q := fun (o : outcome unit) (t : list event) =>
              forall x md r,
                EvCreateProject x md r ∈ t ->
                (exists name,
                   List.filter is_check_project t
                   = [EvCheckProjectExist var_p name (Ok None)]) /\
                List.filter is_create t = [EvCreateProject var_p md r] /\
                List.filter is_warning t = [] /\
                creating_log pn ∈ t /\
                (forall y project_id r', EvImportMetadata y project_id r' ∈ t ->
                   r = Ok project_id) /\
                (forall e, r = Err e ->
                   o = Raise SystemExit /\
                   List.filter is_exception_log t = [exception_log e] /\
                   List.filter is_session t = [])).
  change (wp (project_import_cmd pn) s (fun o _ t => Q o t)).
  wp_import; subst Q; cbv beta;
    intros xc mdc rc Hin; use_event is_create Hin.
  all: split; [eexists; by project is_check_project|].
  all: split; [by project is_create|].
  all: split; [by project is_warning|].
  all: split; [find_event is_info_log|].
  all: split;
    [ intros y pid r' Hm; by use_event is_import_metadata Hm
    | intros e' He; simplify_eq ].
  all: split; [done|split; [by project is_exception_log|by project is_session]].
Qed.

(** X21: the first importer of an import is built before the [try]: when
    its construction raises, the command raises the same, nothing has been
    logged and [exit] is not called.  The construction of the importer
    that transfers, and of both exporters of an export, is handled: the
    exception is logged and the command leaves with [SystemExit], no
    session having been used. *)
Theorem first_importer_is_built_outside_the_try pn (s : state W Obj) :
  (forall a e,
     EvNewImporter var_p a (Err e) ∈ trace_of (project_import_cmd pn) s ->
     outcome_of (project_import_cmd pn) s = Raise e /\
     List.filter is_log (trace_of (project_import_cmd pn) s) = [] /\
     List.filter is_exit (trace_of (project_import_cmd pn) s) = []) /\
  (forall a e,
     EvNewImporter var_pimport a (Err e)
     ∈ trace_of (project_import_cmd pn) s ->
     outcome_of (project_import_cmd pn) s = Raise SystemExit /\
     List.filter is_exception_log (trace_of (project_import_cmd pn) s)
     = [exception_log e] /\
     List.filter is_session (trace_of (project_import_cmd pn) s) = []) /\
  (forall x a e,
     EvNewExporter x a (Err e) ∈ trace_of (project_export_cmd pn) s ->
     outcome_of (project_export_cmd pn) s = Raise SystemExit /\
     List.filter is_exception_log (trace_of (project_export_cmd pn) s)
     = [exception_log e] /\
     List.filter is_session (trace_of (project_export_cmd pn) s) = []).
Proof.
  set (Qi := fun (o : outcome unit) (t : list event) =>
               forall x a e, EvNewImporter x a (Err e) ∈ t ->
                 (x = var_p ->
                  o = Raise e /\ List.filter is_log t = [] /\
                  List.filter is_exit t = []) /\
                 (x = var_pimport ->
                  o = Raise SystemExit /\
                  List.filter is_exception_log t = [exception_log e] /\
                  List.filter is_session t = [])).
  assert (wp (project_import_cmd pn) s (fun o _ t => Qi o t)) as Himport.
  { wp_import; subst Qi; cbv beta.
    all: intros x args e' Hin; use_event is_new_importer Hin.
    all: (split; intros Hx; [|done]) || (split; intros Hx; [done|]).
    all: split; [done|].
    all: lazymatch goal with
      | |- List.filter is_log _ = _ /\ _ =>
          split; [by project is_log|by project is_exit]
      | |- _ =>
          split; [by project is_exception_log|by project is_session]
      end. }
  set (Qe := fun (o : outcome unit) (t : list event) =>
               forall x a e, EvNewExporter x a (Err e) ∈ t ->
                 o = Raise SystemExit /\
                 List.filter is_exception_log t = [exception_log e] /\
                 List.filter is_session t = []).
  assert (wp (project_export_cmd pn) s (fun o _ t => Qe o t)) as Hexport.
  { wp_export; subst Qe; cbv beta.
    all: intros x args e' Hin; use_event is_new_exporter Hin.
    all: split; [done|].
    all: split; [by project is_exception_log|by project is_session]. }
  split; [|split].
  - intros a e Hin. by apply (Himport var_p a e Hin).
  - intros a e Hin. by apply (Himport var_pimport a e Hin).
  - exact Hexport.
Qed.
End Objects.

(** ** The validator loop *)

Section ValidatorLoop.
Context {W Obj Validator : Type} {collab : Collaborators W Obj Validator}.

(** The validator loop again, with the number of its events when it runs
    to its end. *)
Lemma wp_run_validators_counted
    (report : string -> event) (rep : string -> M W Obj unit)
    (validators : list Validator) (i : nat) (s : state W Obj) Q :
  (forall msg s', rep msg s' = (Ret tt, s', [report msg])) ->
  (forall o w t, validated report i o t ->
     (o = Ret tt -> length t = length validators) ->
     Q o (mkState w (local s) (files s)) t) ->
  wp (run_validators rep i validators) s Q.
Proof.
  intros Hrep. revert i s Q.
  induction validators as [|v rest IH]; intros i s Q HQ; simpl.
  - eapply wp_val; [reflexivity|]. destruct s. apply HQ; [constructor|done].
  - apply wp_bind, wp_call. intros [vr|e] w Hv; unfold of_result, then_.
    + destruct (is_FAILED (validation_status vr)) eqn:Hf.
      * apply wp_bind. eapply wp_val; [apply Hrep|]. unfold then_.
        eapply wp_val; [reflexivity|]. simpl. apply HQ; [|done].
        by apply validated_fail.
      * apply IH. intros o w' t Hval Hlen. simpl. apply HQ.
        -- by apply validated_pass.
        -- intros Ho. simpl. by rewrite Hlen.
    + apply HQ; [apply validated_raise|done].
Qed.

Lemma validated_complete report i t :
  validated report i (Ret tt) t ->
  Forall2 passed (seq i (length t)) t /\ List.filter is_validate t = t.
Proof.
  intros H. remember (Ret tt) as o eqn:Ho.
  induction H as [|i vr o t Hf H IH| |]; try discriminate Ho.
  - split; [constructor|done].
  - destruct (IH Ho) as [Hall Hfilter]. split.
    + simpl. constructor; [|done]. exists vr. split; [done|].
      by destruct (validation_status vr).
    + simpl. by rewrite Hfilter.
Qed.

Lemma validated_raised report i o t k e :
  validated report i o t ->
  (forall msg, is_validate (report msg) = false) ->
  EvValidate k (Err e) ∈ t ->
  o = Raise e /\ (forall j r, EvValidate j r ∈ t -> j <= k) /\
  forall f : event -> bool,
    (forall j r, f (EvValidate j r) = false) -> List.filter f t = [].
Proof.
  intros H Hr. induction H as [|i vr o t Hf H IH|i vr Hf|i e']; intros Hin.
  - by apply elem_of_nil in Hin.
  - apply elem_of_cons in Hin as [Hin|Hin]; [by simplify_eq|].
    destruct (IH Hin) as (-> & Hle & Hfilter). split; [done|]. split.
    + intros j r Hj. apply elem_of_cons in Hj as [Hj|Hj]; [|by eapply Hle].
      simplify_eq. pose proof (validated_index _ _ _ _ _ _ H Hr Hin). lia.
    + intros f Hfv. simpl. rewrite Hfv. by apply Hfilter.
  - apply elem_of_cons in Hin as [Hin|Hin]; [by simplify_eq|].
    apply list_elem_of_singleton in Hin.
    apply (f_equal is_validate) in Hin. rewrite Hr in Hin. discriminate.
  - apply list_elem_of_singleton in Hin. simplify_eq.
    split; [done|]. split.
    + intros j r Hj. apply list_elem_of_singleton in Hj. simplify_eq. lia.
    + intros f Hfv. simpl. by rewrite Hfv.
Qed.
End ValidatorLoop.

Ltac wp_counted_step :=
  lazymatch goal with
  | |- wp (run_validators _ _ _) _ _ =>
      eapply wp_run_validators_counted;
      [ intros; reflexivity
      | let o := fresh "o" in let Hval := fresh "Hval" in
        let Hlen := fresh "Hlen" in
        intros o ? ? Hval Hlen; destruct o;
        [ | | by apply validated_ends in Hval ] ]
  | _ => wp_step
  end.

Ltac wp_export_counted :=
  unfold project_export_cmd, _read_config_file,
    _configure_project_command_logging, new_exporter, handler,
    terminate_if_bound, exit;
  cbn [read_keys];
  repeat wp_counted_step.

Ltac wp_import_counted :=
  unfold project_import_cmd, _read_config_file,
    _configure_project_command_logging, new_importer, create_project, handler,
    terminate_if_bound, exit;
  cbn [read_keys];
  repeat wp_counted_step.

(** The validate events of the path at hand, when the loop ran to its
    end. *)
Ltac all_passed :=
  project is_validate;
  match goal with
  | Hv : validated _ _ (Ret _) ?t, Hlen : _ -> length ?t = _ |- _ =>
      let Hall := fresh "Hall" in let Hfilter := fresh "Hfilter" in
      destruct (validated_complete _ _ _ Hv) as [Hall Hfilter];
      rewrite ?List.filter_app, Hfilter;
      cbn [List.filter is_validate app];
      rewrite ?app_nil_r, <- (Hlen eq_refl); exact Hall
  end.

Ltac no_event f Hnone :=
  cbn [app List.filter f]; rewrite ?List.filter_app;
  rewrite (Hnone f) by done; by cbn [app List.filter f].

(** One path of a run, for [stopped_by_error]. *)
Ltac raised_path :=
  let i := fresh "i" in let e := fresh "e" in let Hin := fresh "Hin" in
  intros i e Hin;
  apply (filter_elem is_validate) in Hin; [|reflexivity];
  project_in is_validate Hin;
  first
    [ by apply elem_of_nil in Hin
    | apply elem_filter in Hin as [Hin _];
      lazymatch goal with
      | Hv : validated _ _ _ ?t |- _ =>
          let Ho := fresh "Ho" in let Hle := fresh "Hle" in
          let Hnone := fresh "Hnone" in
          destruct (validated_raised _ _ _ _ _ _ Hv (fun _ => eq_refl) Hin)
            as (Ho & Hle & Hnone);
          first
            [ discriminate Ho
            | injection Ho as ->;
              (split;
               [ let j := fresh "j" in let r := fresh "r" in
                 let Hj := fresh "Hj" in
                 intros j r Hj;
                 apply (filter_elem is_validate) in Hj; [|reflexivity];
                 project_in is_validate Hj;
                 apply elem_filter in Hj as [Hj _]; by eapply Hle
               | split;
                 [ no_event is_session Hnone
                 | split;
                   [ no_event is_error_log Hnone
                   | split;
                     [ no_event is_exception_log Hnone
                     | reflexivity ] ] ] ]) ]
      end ].

Section Validators.
Context {W Obj Validator : Type} {collab : Collaborators W Obj Validator}.

(** X22: when an export gets to build the exporter that transfers, and
    when an import gets to read the metadata file, every validator that
    was initialised has been evaluated, in order, and has reported
    PASSED. *)
Theorem work_starts_after_all_validators_passed pn (s : state W Obj) va n :
  (EvInitValidators va (Ok n) ∈ trace_of (project_export_cmd pn) s ->
   (exists a r,
      EvNewExporter var_pexport a r ∈ trace_of (project_export_cmd pn) s) ->
   Forall2 passed (seq 0 n)
     (List.filter is_validate (trace_of (project_export_cmd pn) s))) /\
  (EvInitValidators va (Ok n) ∈ trace_of (project_import_cmd pn) s ->
   (exists path r,
      EvReadJson path r ∈ trace_of (project_import_cmd pn) s) ->
   Forall2 passed (seq 0 n)
     (List.filter is_validate (trace_of (project_import_cmd pn) s))).
Proof.
  revert va n.
  set (Qe := fun (t : list event) =>
               forall va n,
                 EvInitValidators va (Ok n) ∈ t ->
                 (exists a r, EvNewExporter var_pexport a r ∈ t) ->
                 Forall2 passed (seq 0 n) (List.filter is_validate t)).
  set (Qi := fun (t : list event) =>
               forall va n,
                 EvInitValidators va (Ok n) ∈ t ->
                 (exists path r, EvReadJson path r ∈ t) ->
                 Forall2 passed (seq 0 n) (List.filter is_validate t)).
  assert (wp (project_export_cmd pn) s (fun _ _ t => Qe t)) as He.
  { wp_export_counted; subst Qe Qi; cbv beta.
    all: intros va n Hinit [args [res Hnew]];
      use_event is_init_validators Hinit; use_event is_new_exporter Hnew.
    all: all_passed. }
  assert (wp (project_import_cmd pn) s (fun _ _ t => Qi t)) as Hi.
  { wp_import_counted; subst Qe Qi; cbv beta.
    all: intros va n Hinit [path [res Hread]];
      use_event is_init_validators Hinit; use_event is_read_json Hread.
    all: all_passed. }
  intros va n. split; [apply He|apply Hi].
Qed.

(** X23: when a validator of an export or of an import raises, no
    validator after it is evaluated and no transfer, dump or terminate call
    is made; the handler logs that exception, no error record is logged,
    and the command leaves with [SystemExit]. *)
Theorem raising_validator_stops_the_operation pn (s : state W Obj) i e :
  (EvValidate i (Err e) ∈ trace_of (project_export_cmd pn) s ->
   stopped_by_error i e (outcome_of (project_export_cmd pn) s)
     (trace_of (project_export_cmd pn) s)) /\
  (EvValidate i (Err e) ∈ trace_of (project_import_cmd pn) s ->
   stopped_by_error i e (outcome_of (project_import_cmd pn) s)
     (trace_of (project_import_cmd pn) s)).
Proof.
  revert i e.
  set (Q := fun (o : outcome unit) (t : list event) =>
              forall i e, EvValidate i (Err e) ∈ t -> stopped_by_error i e o t).
  assert (wp (project_export_cmd pn) s (fun o _ t => Q o t)) as He.
  { wp_export; subst Q; cbv beta; unfold stopped_by_error; raised_path. }
  assert (wp (project_import_cmd pn) s (fun o _ t => Q o t)) as Hi.
  { wp_import; subst Q; cbv beta; unfold stopped_by_error; raised_path. }
  intros i e. split; [apply He|apply Hi].
Qed.
End Validators.

(** ** The theorems on the examples *)

Ltac here := repeat first [apply list_elem_of_here | apply list_elem_of_further].

Lemma failed_validator_stops_the_operation_witness :
  stopped_by 1 disk_space_failure
    (outcome_of (export_of disk_full "proj") start)
    (trace_of (export_of disk_full "proj") start) /\
  stopped_by 1 disk_space_failure
    (outcome_of (import_of disk_full "proj") start)
    (trace_of (import_of disk_full "proj") start).
Proof.
  pose proof (failed_validator_stops_the_operation (collab := scripted disk_full)
                "proj" start 1 disk_space_failure eq_refl) as [He Hi].
  split; [apply He|apply Hi]; vm_compute; here.
Defined.

Lemma terminate_calls_on_each_path_witness :
  length (List.filter is_terminate
            (trace_of (import_of late_failure "proj") start)) = 2.
Proof.
  apply (proj2 (terminate_calls_on_each_path (collab := scripted late_failure)
                  "proj" start)) with (x := var_pimport).
  - vm_compute; here.
  - vm_compute. discriminate.
Defined.

(** The import of [late_failure] calls terminate after the transfer and
    again in the handler. *)
Lemma import_closes_twice_after_late_failure :
  outcome_of (import_of late_failure "proj") start = Raise SystemExit /\
  List.filter is_terminate (trace_of (import_of late_failure "proj") start)
  = [EvTerminate var_pimport (Ok tt); EvTerminate var_pimport (Ok tt)] /\
  length (List.filter is_terminate
            (trace_of (import_of late_failure "proj") start)) <> 1.
Proof. vm_compute. repeat split; discriminate. Qed.

Lemma export_aborts_when_project_not_found_witness :
  outcome_of (export_of not_found "proj") start = Raise SystemExit /\
  List.filter after_identity (trace_of (export_of not_found "proj") start)
  = [].
Proof.
  destruct (export_aborts_when_project_not_found (collab := scripted not_found)
              "proj" start var_pobj [None; None])
    as (Ho & _ & _ & _ & Ha).
  - vm_compute; here.
  - exact (conj Ho Ha).
Defined.

Lemma export_metadata_written_after_transfer_witness :
  EvTransfer var_pexport (Ok tt)
  ∈ take 14 (trace_of (export_of all_good "proj") start).
Proof.
  apply (proj1 (export_metadata_written_after_transfer
                  (collab := scripted all_good) "proj" start))
    with (r := Ok tt) (post := []).
  vm_compute. reflexivity.
Defined.

Lemma legacy_engine_patch_follows_transfer_witness :
  EvConvertToEngine var_pimport legacy_patch (Ok tt)
  ∈ trace_of (import_of legacy_project "proj") start.
Proof.
  destruct (legacy_engine_patch_follows_transfer
              (collab := scripted legacy_project) "proj" start
              "/data/out/proj/project-metadata.json" legacy_metadata)
    as (_ & _ & Hdone & _).
  - vm_compute; here.
  - apply Hdone; [vm_compute; eauto|vm_compute; reflexivity].
Defined.

(** C5: the import of a legacy-engine project whose name the destination
    has already.  The creation is not called and the warning is logged, which
    says that existing project settings will not be updated; the command
    returns, and on its way it has sent the engine-type patch to the project
    that was there. *)
Theorem reimport_warns_but_patches :
  let m := import_of imported_again "proj" in
  outcome_of m start = Ret tt /\
  EvCheckProjectExist var_p (JStr "churn") (Ok (Some "id-7"))
  ∈ trace_of m start /\
  List.filter is_create (trace_of m start) = [] /\
  List.filter is_warning (trace_of m start)
  = [EvLog WARNING import_warning [JStr "churn"] None] /\
  List.filter writes_settings (trace_of m start)
  = [EvConvertToEngine var_pimport legacy_patch (Ok tt)].
Proof.
  split; [by vm_compute|]. split; [vm_compute; here|].
  split; [by vm_compute|]. split; by vm_compute.
Qed.

Lemma reimport_skips_creation_witness :
  List.filter is_create (trace_of (import_of imported_again "proj") start)
  = [] /\
  List.filter is_warning (trace_of (import_of imported_again "proj") start)
  = [EvLog WARNING import_warning [JStr "churn"] None].
Proof.
  destruct (reimport_skips_creation (collab := scripted imported_again)
              "proj" start var_p (JStr "churn") "id-7")
    as (Hc & Hw & _).
  - vm_compute; here.
  - exact (conj Hc Hw).
Defined.

Lemma import_transfers_as_team_witness :
  im_username team_importer
  = default (im_username first_importer) (legacy_metadata !! "team_name").
Proof.
  apply (import_transfers_as_team (collab := scripted legacy_project)
           "proj" start "/data/out/proj/project-metadata.json"
           legacy_metadata first_importer (Ok tt) team_importer (Ok tt)).
  - intros o md w. reflexivity.
  - vm_compute; here.
  - vm_compute; here.
  - vm_compute; here.
Defined.

Lemma import_keyed_on_metadata_name_witness :
  sample_metadata !! "name" = Some (JStr "churn").
Proof.
  destruct (import_keyed_on_metadata_name (collab := scripted all_good)
              "proj" start "/data/out/proj/project-metadata.json"
              sample_metadata) as (Hcheck & _).
  - vm_compute; here.
  - apply (Hcheck var_p (JStr "churn") (Ok None)). vm_compute; here.
Defined.

Lemma catalog_built_from_all_pages_witness :
  let m := populate_of paged_listing 1 in
  catalog_built [Some page_one; Some page_two] ∅
    (outcome_of m start) (files (state_of m start))
    (List.filter is_catalog_step (trace_of m start)).
Proof.
  apply (catalog_built_from_all_pages (collab := scripted paged_listing)
           1 start page_one [page_two]).
  - unfold catalog_ready, succeeds.
    split; [reflexivity|]. split; [intros []; by eexists|].
    split; [|repeat split; intros; by eexists].
    intros k Hk [].
    change (k ∈ ["username"; "url"; "apiv1_key"; "output_dir"]) in Hk.
    in_list; by eexists.
  - intros o w. reflexivity.
  - simpl. split; [done|]. split; [|reflexivity]. intros o w. reflexivity.
  - simpl. lia.
Defined.

(** The spec's two pages give the catalog of [a], [b] and [c], written
    once. *)
Lemma two_pages_aggregate :
  let m := populate_of paged_listing 1 in
  outcome_of m start = Ret tt /\
  List.filter is_catalog_step (trace_of m start)
  = [EvGetAllRuntimes var_p EmptyString (Ok (Some page_one));
     EvGetAllRuntimes var_p "t1" (Ok (Some page_two));
     EvParseRuntimes [JStr "a"; JStr "b"; JStr "c"]
       (Ok (JArr [JStr "a"; JStr "b"; JStr "c"]));
     EvOpenWrite (catalog_path "/home/u") (Ok tt);
     EvDump (JArr [JStr "a"; JStr "b"; JStr "c"]) "a,b,c" None] /\
  files (state_of m start) !! catalog_path "/home/u" = Some "a,b,c".
Proof. by vm_compute. Qed.

Lemma catalog_keeps_pages_before_lost_response_witness :
  let m := populate_of lost_third_page 2 in
  exists r tail,
    List.filter is_catalog_step (trace_of m start)
    = [EvGetAllRuntimes var_p EmptyString (Ok (Some page_one));
       EvGetAllRuntimes var_p "t1" (Ok (Some page_between));
       EvGetAllRuntimes var_p "t2" (Ok None);
       EvParseRuntimes [JStr "a"; JStr "b"; JStr "c"] r] ++ tail /\
    catalog_written [JStr "a"; JStr "b"; JStr "c"] ∅
      (outcome_of m start) (files (state_of m start))
      (EvParseRuntimes [JStr "a"; JStr "b"; JStr "c"] r :: tail).
Proof.
  apply (catalog_keeps_pages_before_lost_response
           (collab := scripted lost_third_page) 2 start page_one
           [page_between]).
  - unfold catalog_ready, succeeds.
    split; [reflexivity|]. split; [intros []; by eexists|].
    split; [|repeat split; intros; by eexists].
    intros k Hk [].
    change (k ∈ ["username"; "url"; "apiv1_key"; "output_dir"]) in Hk.
    in_list; by eexists.
  - intros o w. reflexivity.
  - simpl. split; [done|]. split; [intros o w; reflexivity|].
    split; [done|]. split; [|reflexivity]. intros o w. reflexivity.
  - discriminate.
  - simpl. lia.
Defined.

(** After a first page with runtimes and a second fetch without response,
    the catalog file is written, from the first page alone. *)
Lemma partial_catalog_is_written :
  let m := populate_of broken_listing 5 in
  List.filter is_catalog_step (trace_of m start)
  = [EvGetAllRuntimes var_p EmptyString (Ok (Some page_one));
     EvGetAllRuntimes var_p "t1" (Ok None);
     EvParseRuntimes [JStr "a"; JStr "b"] (Ok (JArr [JStr "a"; JStr "b"]));
     EvOpenWrite (catalog_path "/home/u") (Ok tt);
     EvDump (JArr [JStr "a"; JStr "b"]) "a,b" None] /\
  files (state_of m start) !! catalog_path "/home/u" = Some "a,b" /\
  files (state_of m start) !! catalog_path "/home/u"
  <> files start !! catalog_path "/home/u".
Proof. vm_compute. repeat split; discriminate. Qed.

(** ** The further theorems on the examples *)

Lemma config_has_the_five_keys_witness :
  dom good_options = config_keys (collab := scripted all_good).
Proof.
  eapply proj1,
    (config_has_the_five_keys (collab := scripted all_good)
       "/home/u/.cmlutils/export-config.ini" "proj" start good_options).
  vm_compute. reflexivity.
Defined.

Lemma read_config_returns_the_options_witness :
  exists cfg,
    outcome_of
      (_read_config_file (collab := scripted with_ca_path)
         "/home/u/.cmlutils/export-config.ini" "proj") start = Ret cfg /\
    forall k v,
      k ∈ required_keys (collab := scripted with_ca_path) ++ ["ca_path"] ->
      full_config k = Ok v -> cfg !! k = Some v.
Proof.
  apply (read_config_returns_the_options (collab := scripted with_ca_path)
           "/home/u/.cmlutils/export-config.ini" "proj" start full_config).
  - intros key w. reflexivity.
  - reflexivity.
  - reflexivity.
  - intros k Hk.
    change (k ∈ ["username"; "url"; "apiv1_key"; "output_dir"; "ca_path"])
      in Hk.
    in_list; eexists; reflexivity.
Defined.

Lemma ca_path_is_optional_witness :
  exists cfg,
    outcome_of
      (_read_config_file (collab := scripted all_good)
         "/home/u/.cmlutils/export-config.ini" "proj") start = Ret cfg /\
    cfg !! "ca_path" = Some EmptyString.
Proof.
  apply (ca_path_is_optional (collab := scripted all_good)
           "/home/u/.cmlutils/export-config.ini" "proj" start good_config
           (NoOptionError "ca_path" "proj")).
  - intros key w. reflexivity.
  - reflexivity.
  - reflexivity.
  - intros k Hk.
    change (k ∈ ["username"; "url"; "apiv1_key"; "output_dir"]) in Hk.
    in_list; eexists; reflexivity.
  - reflexivity.
  - reflexivity.
Defined.

Lemma failing_option_is_raised_witness :
  outcome_of
    (_read_config_file (collab := scripted no_api_key)
       "/home/u/.cmlutils/export-config.ini" "proj") start
  = Raise (NoOptionError "apiv1_key" "proj") /\
  trace_of
    (_read_config_file (collab := scripted no_api_key)
       "/home/u/.cmlutils/export-config.ini" "proj") start
  = [missing_key_message "apiv1_key"].
Proof.
  apply (failing_option_is_raised (collab := scripted no_api_key)
           "/home/u/.cmlutils/export-config.ini" "proj" start
           config_without_api_key ["username"; "url"] "apiv1_key"
           ["output_dir"] (NoOptionError "apiv1_key" "proj")).
  - intros key w. reflexivity.
  - reflexivity.
  - reflexivity.
  - reflexivity.
  - intros k Hk. in_list; eexists; reflexivity.
  - reflexivity.
Defined.

Lemma config_failure_is_not_handled_witness :
  outcome_of (export_of no_config_file "proj") start
  = Raise config_file_error /\
  trace_of (export_of no_config_file "proj") start
  = [missing_file_message "/home/u/.cmlutils/export-config.ini"].
Proof.
  apply (proj1 (config_failure_is_not_handled (collab := scripted no_config_file)
                  "proj" 0 start config_file_error)).
  vm_compute. reflexivity.
Defined.

Lemma parser_receives_all_runtimes_witness :
  [JStr "a"; JStr "b"; JStr "c"]
  = gathered (trace_of (populate_of paged_listing 1) start).
Proof.
  eapply proj1,
    (parser_receives_all_runtimes (collab := scripted paged_listing) 1 start
       [JStr "a"; JStr "b"; JStr "c"]
       (Ok (JArr [JStr "a"; JStr "b"; JStr "c"]))).
  vm_compute; here.
Defined.

Lemma empty_first_response_ends_the_command_witness :
  outcome_of (populate_of all_good 3) start = Ret tt /\
  files (state_of (populate_of all_good 3) start) = files start /\
  List.filter is_log (trace_of (populate_of all_good 3) start)
  = [empty_response_log] /\
  List.filter is_catalog_step (trace_of (populate_of all_good 3) start)
  = [EvGetAllRuntimes var_p EmptyString (Ok None)].
Proof.
  apply (empty_first_response_ends_the_command (collab := scripted all_good)
           3 start var_p).
  vm_compute; here.
Defined.

Lemma nothing_gathered_nothing_written_witness :
  gathered (trace_of (populate_of nothing_listed 3) start) = [] /\
  files (state_of (populate_of nothing_listed 3) start) = files start /\
  (List.filter is_log (trace_of (populate_of nothing_listed 3) start)
   = [empty_response_log] \/
   List.filter is_log (trace_of (populate_of nothing_listed 3) start)
   = [no_runtimes_log]).
Proof.
  apply (nothing_gathered_nothing_written (collab := scripted nothing_listed)
           3 start).
  - vm_compute. reflexivity.
  - vm_compute. reflexivity.
Defined.

Lemma write_failure_is_logged_witness :
  outcome_of (populate_of read_only_home 1) start = Ret tt /\
  files (state_of (populate_of read_only_home 1) start) = files start.
Proof.
  destruct (proj1 (write_failure_is_logged (collab := scripted read_only_home)
                     1 start)
              (catalog_path "/home/u") (OtherError "permission denied"))
    as (Ho & Hf & _).
  - vm_compute; here.
  - exact (conj Ho Hf).
Defined.

Lemma listing_errors_are_raised_witness :
  outcome_of (populate_of failing_listing 3) start
  = Raise (OtherError "listing failed") /\
  files (state_of (populate_of failing_listing 3) start) = files start.
Proof.
  destruct (proj1 (listing_errors_are_raised (collab := scripted failing_listing)
                     3 start)
              var_p "t1" (OtherError "listing failed"))
    as (Ho & Hf & _).
  - vm_compute; here.
  - exact (conj Ho Hf).
Defined.

Lemma exit_is_the_last_step_witness :
  left_through_exit (outcome_of (export_of not_found "proj") start)
    (trace_of (export_of not_found "proj") start).
Proof.
  apply (proj1 (exit_is_the_last_step (collab := scripted not_found)
                  "proj" start)).
  vm_compute; here.
Defined.

Lemma failed_terminate_replaces_exit_witness :
  left_through_terminate (OtherError "session lost")
    (outcome_of (export_of broken_session "proj") start)
    (trace_of (export_of broken_session "proj") start).
Proof.
  apply (proj1 (failed_terminate_replaces_exit (collab := scripted broken_session)
                  "proj" start var_pexport (OtherError "session lost"))).
  vm_compute. reflexivity.
Defined.

Lemma export_returns_after_the_dump_witness :
  outcome_of (export_of all_good "proj") start = Ret tt.
Proof.
  apply (proj1 (export_returns_after_the_dump (collab := scripted all_good)
                  "proj" start)).
  vm_compute; here.
Defined.

Lemma import_returns_after_the_metadata_witness :
  outcome_of (import_of all_good "proj") start = Ret tt.
Proof.
  apply (proj1 (import_returns_after_the_metadata (collab := scripted all_good)
                  "proj" start)).
  exists (Some "id-1"). vm_compute; here.
Defined.

Lemma export_acts_as_the_creator_witness :
  ex_username creator_exporter = "alice" /\
  ex_project_slug creator_exporter = Some "alice/churn" /\
  exporter_settings creator_exporter = exporter_settings first_exporter.
Proof.
  destruct (export_acts_as_the_creator (collab := scripted all_good)
              "proj" start var_pobj "alice" (Some "alice/churn") (Some "user"))
    as (a0 & _ & _ & _ & _ & _ & Hnew).
  - vm_compute; here.
  - destruct (Hnew creator_exporter (Ok tt)) as (Hu & Hs & _);
      [vm_compute; here|].
    split; [exact Hu|]. split; [exact Hs|reflexivity].
Defined.

Lemma import_objects_share_the_settings_witness :
  importer_settings plain_importer = importer_settings first_importer.
Proof.
  destruct (import_objects_share_the_settings (collab := scripted all_good)
              "proj" start first_importer (Ok tt))
    as (_ & _ & _ & Hnew).
  - vm_compute; here.
  - destruct (Hnew plain_importer (Ok tt)) as [Hs _]; [vm_compute; here|].
    exact Hs.
Defined.

Lemma project_is_created_when_not_found_witness :
  List.filter is_create (trace_of (import_of all_good "proj") start)
  = [EvCreateProject var_p sample_metadata (Ok (Some "id-1"))].
Proof.
  destruct (project_is_created_when_not_found (collab := scripted all_good)
              "proj" start var_p sample_metadata (Ok (Some "id-1")))
    as (_ & Hc & _).
  - vm_compute; here.
  - exact Hc.
Defined.

Lemma first_importer_is_built_outside_the_try_witness :
  outcome_of (export_of no_transfer_object "proj") start = Raise SystemExit /\
  List.filter is_session (trace_of (export_of no_transfer_object "proj") start)
  = [].
Proof.
  destruct (proj2 (proj2 (first_importer_is_built_outside_the_try
                            (collab := scripted no_transfer_object)
                            "proj" start))
              var_pexport creator_exporter (OtherError "no ssh"))
    as (Ho & _ & Hs).
  - vm_compute; here.
  - exact (conj Ho Hs).
Defined.

Lemma work_starts_after_all_validators_passed_witness :
  Forall2 passed (seq 0 2)
    (List.filter is_validate (trace_of (export_of all_good "proj") start)).
Proof.
  apply (proj1 (work_starts_after_all_validators_passed
                  (collab := scripted all_good) "proj" start
                  creator_validators 2)).
  - vm_compute; here.
  - exists creator_exporter, (Ok tt). vm_compute; here.
Defined.

Lemma raising_validator_stops_the_operation_witness :
  stopped_by_error 1 (OtherError "timeout")
    (outcome_of (export_of validator_crash "proj") start)
    (trace_of (export_of validator_crash "proj") start).
Proof.
  apply (proj1 (raising_validator_stops_the_operation
                  (collab := scripted validator_crash) "proj" start 1
                  (OtherError "timeout"))).
  vm_compute; here.
Defined.
